(** * Panorama reality viewer (src/panorama-reality/reality.ts)

    A shallow embedding of the panorama reality: the registry of panoramas,
    the two alternating sphere slots and their fade, the promise of each
    texture, and the per-tick frame handler that fuses device orientation,
    wheel, pinch and drag input into the published view state.

    JavaScript numbers are modelled as real numbers: arithmetic is exact and
    there is no NaN or infinity; where the source tests for them (isFinite)
    the test is written out on the operands. *)

From Stdlib Require Import Reals Lra Ascii String.
From stdpp Require Import base option strings list gmap.

Set Warnings "-register-all".
Local Open Scope R_scope.

(** ** Errors a handler throws *)

Inductive Error :=
| ExpectedImageUrl            (* 'Expected an equirectangular image url!' *)
| ExpectedUrl                 (* 'Expected a url' *)
| UnknownEasing               (* 'Unknown easing: ...' *)
| UnknownPano (url : string)  (* 'Unknown pano: ... (did you forget ...)' *)
| TypeError (what : string).  (* raised by the JavaScript runtime *)

(** The error taxonomy of the command surface: every error of the source is a
    plain [Error]; the message tells the kind. *)
Inductive ErrorKind := ValidationError | NotFoundError | RuntimeError.

Definition errorKind (e : Error) : ErrorKind :=
  match e with
  | ExpectedImageUrl | ExpectedUrl | UnknownEasing => ValidationError
  | UnknownPano _ => NotFoundError
  | TypeError _ => RuntimeError
  end.

(** ** Cesium's vectors and quaternions *)

Record Cartesian3 := mkCartesian3 { c3x : R; c3y : R; c3z : R }.

Record Quaternion := mkQuaternion { qx : R; qy : R; qz : R; qw : R }.

Module CesiumMath.
Definition PI_OVER_TWO : R := PI / 2.
Definition RADIANS_PER_DEGREE : R := PI / 180.
Definition DEGREES_PER_RADIAN : R := 180 / PI.
End CesiumMath.

Module Cartesian3.
Definition ZERO := mkCartesian3 0 0 0.
Definition UNIT_X := mkCartesian3 1 0 0.
Definition UNIT_Y := mkCartesian3 0 1 0.

Definition magnitude (c : Cartesian3) : R :=
  sqrt (c3x c * c3x c + c3y c * c3y c + c3z c * c3z c).

Definition normalize (c : Cartesian3) : Cartesian3 :=
  let m := magnitude c in
  mkCartesian3 (c3x c / m) (c3y c / m) (c3z c / m).
End Cartesian3.

Module Quaternion.
(** [Quaternion.fromAxisAngle(axis, angle, result)] *)
Definition fromAxisAngle (axis : Cartesian3) (angle : R) : Quaternion :=
  let halfAngle := angle / 2 in
  let s := sin halfAngle in
  let n := Cartesian3.normalize axis in
  mkQuaternion (c3x n * s) (c3y n * s) (c3z n * s) (cos halfAngle).

(** [Quaternion.multiply(left, right, result)]: the Hamilton product
    [left * right]; every component is read before [result] is written, so
    [result] may alias an operand. *)
Definition multiply (left right : Quaternion) : Quaternion :=
  let '(mkQuaternion lx ly lz lw) := left in
  let '(mkQuaternion rx ry rz rw) := right in
  mkQuaternion
    (lw * rx + lx * rw + ly * rz - lz * ry)
    (lw * ry - lx * rz + ly * rw + lz * rx)
    (lw * rz + lx * ry - ly * rx + lz * rw)
    (lw * rw - lx * rx - ly * ry - lz * rz).
End Quaternion.

(** ** JavaScript values met by [resolve] *)

Inductive jsval :=
| JUndefined
| JNumber (r : R)
| JString (s : string)
| JObject (props : list (string * jsval))
| JFunction (f : R -> R) (props : list (string * jsval)).

(** [!!v] of JavaScript. *)
Definition truthy (v : jsval) : bool :=
  match v with
  | JUndefined => false
  | JNumber r => if Req_dec_T r 0 then false else true
  | JString s => if decide (s = EmptyString) then false else true
  | JObject _ | JFunction _ _ => true
  end.

(** [a || b] *)
Definition js_or (a b : jsval) : jsval := if truthy a then a else b.

Fixpoint assoc (k : string) (props : list (string * jsval)) : jsval :=
  match props with
  | [] => JUndefined
  | (k', v) :: rest => if decide (k = k') then v else assoc k rest
  end.

(** [v[k]] for a truthy [v]: the property lists hold the properties an object
    or a function answers to, own or inherited; properties of primitive
    values are not modelled. *)
Definition prop (v : jsval) (k : string) : jsval :=
  match v with
  | JObject props | JFunction _ props => assoc k props
  | _ => JUndefined
  end.

(** [s.split('.')] *)
Fixpoint split_dot (s : string) : list string :=
  match s with
  | EmptyString => [EmptyString]
  | String c rest =>
      if decide (c = "."%char) then EmptyString :: split_dot rest
      else match split_dot rest with
           | [] => [String c EmptyString]
           | w :: ws => String c w :: ws
           end
  end.

(** [resolve(path, obj, safe = true)] of the source. Its one caller passes the
    object [TWEEN.Easing], so the [obj || self] default is not taken. *)
Definition resolve (path : option string) (obj : jsval) : jsval :=
  match path with
  | None => JUndefined
  | Some p =>
      if decide (p = EmptyString) then JUndefined
      else foldl (fun prev curr => if truthy prev then prop prev curr else JUndefined)
                 obj (split_dot p)
  end.

(** ** Operations of the libraries the viewer calls

    Cesium, Argon and tween.js are not part of the repository. The
    operations whose arithmetic no claim depends on are taken as parameters,
    under the names the source calls them by. *)

Record PerspectiveFrustum := mkFrustum {
  fov : R; aspectRatio : R; near : R; far : R; xOffset : R; yOffset : R
}.

Class Libraries := {
  Matrix4 : Type;
  (** [Cartesian3.fromDegrees(longitude, latitude, height)], given the
      arguments as the handler passes them (either angle may be undefined). *)
  Cartesian3_fromDegrees : option R -> option R -> R -> Cartesian3;
  (** [Transforms.headingPitchRollQuaternion(origin, heading, pitch, roll)] *)
  Transforms_headingPitchRollQuaternion : Cartesian3 -> R -> R -> R -> Quaternion;
  (** [Argon.decomposePerspectiveProjectionMatrix(matrix, frustum)]: the six
      fields it writes into [frustum]. *)
  decomposePerspectiveProjectionMatrix : Matrix4 -> PerspectiveFrustum;
  (** the getter [frustum.projectionMatrix] *)
  frustum_projectionMatrix : PerspectiveFrustum -> Matrix4;
  (** the table [TWEEN.Easing] *)
  TWEEN_Easing : jsval
}.

(** ** Data model *)

Record PanoramaInfo := mkPanoramaInfo {
  url : string;               (* a missing url and the empty one are both falsy *)
  longitude : option R;
  latitude : option R;
  height : option R;
  offsetDegrees : option R
}.

(** A [Cesium.Entity] made by [new Entity]: every one is a distinct object,
    told apart by [entity_id]. Its position, when set, is in the FIXED frame. *)
Record Entity := mkEntity {
  entity_id : nat;
  position : option Cartesian3;
  orientation : option Quaternion
}.

Record Panorama := mkPanorama {
  p_url : string;
  p_longitude : option R;
  p_latitude : option R;
  p_height : option R;
  p_offsetDegrees : option R;
  entity : Entity;
  texture : nat               (* the promise of the texture, by reference *)
}.

Inductive TextureFilter := LinearMipMapLinearFilter | LinearFilter.

Record Texture := mkTexture { image : string; minFilter : TextureFilter }.

Inductive PromiseState (A : Type) :=
| Pending
| Fulfilled (v : A)
| Rejected (reason : string).
Arguments Pending {A}.
Arguments Fulfilled {A} v.
Arguments Rejected {A} reason.

(** What was chained on a texture promise with [then]. *)
Inductive Reaction :=
| BindMap (slot : nat)        (* showPanorama: inMaterial.map = texture *)
| SettleReply (reply : nat).  (* loadPanorama: texture.then(()=>{}) *)

(** The callbacks [loader.load(url, onLoad, onProgress, onError)] can take. *)
Inductive OnLoad := ResolveTexture (promise : nat).
Inductive OnError := RejectTexture (promise : nat).

Record LoadRequest := mkLoadRequest {
  req_url : string;
  req_onLoad : option OnLoad;
  req_onError : option OnError
}.

Record Material := mkMaterial {
  map : option Texture;
  opacity : R;
  needsUpdate : bool;
  transparent : bool
}.

Record Mesh := mkMesh {
  material : Material;
  rotation_y : R;
  scale : R * R * R;
  renderOrder : Z
}.

(** A [TWEEN.Tween] on the opacity of the material of slot [tw_object]. *)
Record Tween := mkTween {
  tw_object : nat;
  tw_valuesStart : R;
  tw_valuesEnd : R;
  tw_duration : R;
  tw_easing : jsval;
  tw_startTime : R
}.

Record VirtualEye := mkVirtualEye {
  eye_orientation : Quaternion;
  (** [ConstantPositionProperty(value, referenceFrame)] with an entity as frame *)
  eye_position : option (Cartesian3 * Entity)
}.

(** The module-level state of the source, and the state of the runtime it
    relies on (promises, loader requests, the tweens of TWEEN). *)
Record State := mkState {
  panoramas : gmap string Panorama;
  currentPano : option Panorama;
  panoSpheres : list Mesh;
  currentSphere : nat;
  virtualEye : VirtualEye;
  tweens : list Tween;
  promises : list (PromiseState Texture);
  reactions : list (nat * Reaction);
  replies : list (PromiseState unit);
  requests : list LoadRequest;
  nextEntity : nat
}.

Definition set_panoramas f st :=
  mkState (f (panoramas st)) (currentPano st) (panoSpheres st) (currentSphere st)
          (virtualEye st) (tweens st) (promises st) (reactions st) (replies st)
          (requests st) (nextEntity st).
Definition set_currentPano v st :=
  mkState (panoramas st) v (panoSpheres st) (currentSphere st)
          (virtualEye st) (tweens st) (promises st) (reactions st) (replies st)
          (requests st) (nextEntity st).
Definition set_panoSpheres f st :=
  mkState (panoramas st) (currentPano st) (f (panoSpheres st)) (currentSphere st)
          (virtualEye st) (tweens st) (promises st) (reactions st) (replies st)
          (requests st) (nextEntity st).
Definition set_currentSphere v st :=
  mkState (panoramas st) (currentPano st) (panoSpheres st) v
          (virtualEye st) (tweens st) (promises st) (reactions st) (replies st)
          (requests st) (nextEntity st).
Definition set_virtualEye v st :=
  mkState (panoramas st) (currentPano st) (panoSpheres st) (currentSphere st)
          v (tweens st) (promises st) (reactions st) (replies st)
          (requests st) (nextEntity st).
Definition set_tweens v st :=
  mkState (panoramas st) (currentPano st) (panoSpheres st) (currentSphere st)
          (virtualEye st) v (promises st) (reactions st) (replies st)
          (requests st) (nextEntity st).
Definition set_promises f st :=
  mkState (panoramas st) (currentPano st) (panoSpheres st) (currentSphere st)
          (virtualEye st) (tweens st) (f (promises st)) (reactions st) (replies st)
          (requests st) (nextEntity st).
Definition set_reactions f st :=
  mkState (panoramas st) (currentPano st) (panoSpheres st) (currentSphere st)
          (virtualEye st) (tweens st) (promises st) (f (reactions st)) (replies st)
          (requests st) (nextEntity st).
Definition set_replies f st :=
  mkState (panoramas st) (currentPano st) (panoSpheres st) (currentSphere st)
          (virtualEye st) (tweens st) (promises st) (reactions st) (f (replies st))
          (requests st) (nextEntity st).
Definition set_requests f st :=
  mkState (panoramas st) (currentPano st) (panoSpheres st) (currentSphere st)
          (virtualEye st) (tweens st) (promises st) (reactions st) (replies st)
          (f (requests st)) (nextEntity st).
Definition set_nextEntity v st :=
  mkState (panoramas st) (currentPano st) (panoSpheres st) (currentSphere st)
          (virtualEye st) (tweens st) (promises st) (reactions st) (replies st)
          (requests st) v.

(** [mesh.material.<field> = ...] on the mesh of a slot. *)
Definition set_material (f : Material -> Material) (m : Mesh) : Mesh :=
  mkMesh (f (material m)) (rotation_y m) (scale m) (renderOrder m).
Definition set_map v (m : Material) := mkMaterial v (opacity m) (needsUpdate m) (transparent m).
Definition set_opacity v (m : Material) := mkMaterial (map m) v (needsUpdate m) (transparent m).
Definition set_needsUpdate v (m : Material) := mkMaterial (map m) (opacity m) v (transparent m).
Definition set_rotation_y v (m : Mesh) := mkMesh (material m) v (scale m) (renderOrder m).
Definition set_scale v (m : Mesh) := mkMesh (material m) (rotation_y m) v (renderOrder m).
Definition set_renderOrder v (m : Mesh) := mkMesh (material m) (rotation_y m) (scale m) v.

(** In-place update of the mesh in slot [i] of [panoSpheres]. *)
Definition on_sphere (i : nat) (f : Mesh -> Mesh) (st : State) : State :=
  set_panoSpheres (alter f i) st.

(** The state after the module body ran: two spheres with a transparent
    material each, slot 0 active, the eye turned by a quarter turn about X. *)
Definition newMesh : Mesh :=
  mkMesh (mkMaterial None 1 false true) 0 (1, 1, 1) 0%Z.

Definition init : State :=
  {| panoramas := ∅;
     currentPano := None;
     panoSpheres := [newMesh; newMesh];
     currentSphere := 0;
     virtualEye := mkVirtualEye
       (Quaternion.fromAxisAngle Cartesian3.UNIT_X CesiumMath.PI_OVER_TWO) None;
     tweens := [];
     promises := [];
     reactions := [];
     replies := [];
     requests := [];
     nextEntity := 0 |}.

(** ** Handlers: state passing with exceptions

    A handler runs on the state and either returns or throws; the state it
    leaves behind is kept in both cases, since a throw does not undo the
    assignments made before it. *)

Inductive outcome (A : Type) :=
| Ok (a : A) (st : State)
| Throw (e : Error) (st : State).
Arguments Ok {A} a st.
Arguments Throw {A} e st.

Definition M (A : Type) : Type := State -> outcome A.

Global Instance M_ret : MRet M := fun A a st => Ok a st.

Global Instance M_bind : MBind M := fun A B k m st =>
  match m st with
  | Ok a st' => k a st'
  | Throw e st' => Throw e st'
  end.

Definition throw {A} (e : Error) : M A := fun st => Throw e st.
Definition gets {A} (f : State -> A) : M A := fun st => Ok (f st) st.
Definition modify (f : State -> State) : M unit := fun st => Ok tt (f st).

Definition stateOf {A} (o : outcome A) : State :=
  match o with
  | Ok _ st | Throw _ st => st
  end.

Definition thrown {A} (o : outcome A) : option Error :=
  match o with
  | Ok _ _ => None
  | Throw e _ => Some e
  end.

(** [v.k] as an expression: reading a property of [undefined] throws. *)
Definition member (v : jsval) (k : string) : M jsval :=
  match v with
  | JUndefined => throw (TypeError "Cannot read property of undefined")
  | _ => mret (prop v k)
  end.

(** ** Promises and the texture loader *)

Definition runReaction (settled : PromiseState Texture) (r : Reaction) (st : State) : State :=
  match r, settled with
  | BindMap slot, Fulfilled tex =>
      (* inMaterial.map = texture; inMaterial.needsUpdate = true *)
      on_sphere slot (set_material (fun m => set_needsUpdate true (set_map (Some tex) m))) st
  | SettleReply k, Fulfilled _ => set_replies (<[k := Fulfilled tt]>) st
  | SettleReply k, Rejected reason => set_replies (<[k := Rejected reason]>) st
  | _, _ => st
  end.

(** Settling a pending promise runs what was chained on it, in order; a
    promise settles once. *)
Definition settle (p : nat) (settled : PromiseState Texture) (st : State) : State :=
  match promises st !! p with
  | Some Pending =>
      let mine := filter (fun pr => pr.1 = p) (reactions st) in
      let st1 := set_promises (<[p := settled]>) st in
      let st2 := set_reactions (filter (fun pr => pr.1 <> p)) st1 in
      foldl (fun s pr => runReaction settled pr.2 s) st2 mine
  | _ => st
  end.

(** [promise.then(reaction)]: queued while the promise is pending, run at
    once (as the next microtask) when it is settled already. *)
Definition promise_then (p : nat) (r : Reaction) (st : State) : State :=
  match promises st !! p with
  | Some Pending => set_reactions (fun rs => rs ++ [(p, r)]) st
  | Some settled => runReaction settled r st
  | None => st
  end.

Inductive LoaderOutcome :=
| ImageLoaded (tex : Texture)
| ImageFailed (reason : string).

Definition runOnLoad (cb : OnLoad) (tex : Texture) (st : State) : State :=
  match cb with
  | ResolveTexture p =>
      (* texture.minFilter = THREE.LinearFilter; resolve(texture) *)
      settle p (Fulfilled (mkTexture (image tex) LinearFilter)) st
  end.

Definition runOnError (cb : OnError) (reason : string) (st : State) : State :=
  match cb with
  | RejectTexture p => settle p (Rejected reason) st
  end.

(** The loader finishes request [i]: it calls the callback given for the
    outcome, when one was given. *)
Definition loaderEvent (i : nat) (o : LoaderOutcome) (st : State) : State :=
  match requests st !! i with
  | None => st
  | Some req =>
      match o with
      | ImageLoaded tex =>
          match req_onLoad req with
          | Some cb => runOnLoad cb tex st
          | None => st
          end
      | ImageFailed reason =>
          match req_onError req with
          | Some cb => runOnError cb reason st
          | None => st
          end
      end
  end.

(** ** Inputs of the handlers *)

Record Transition := mkTransition {
  easing : option string;
  duration : option R
}.

Record ShowPanoramaOptions := mkShowPanoramaOptions {
  o_url : string;
  o_transition : option Transition
}.

Record Viewport := mkViewport { vp_x : R; vp_y : R; vp_width : R; vp_height : R }.

(** What the camera event aggregator holds for the tick: [Some] movement when
    [isMoving] of that event type is true. *)
Record Aggregator := mkAggregator {
  wheel : option R;           (* wheelMovement.endPosition.y *)
  pinch : option (R * R);     (* distance.startPosition.y, distance.endPosition.y *)
  leftDrag : option (R * R)   (* startPosition.x, endPosition.x *)
}.

(** What the host answers during one tick. *)
Record Host := mkHost {
  (** [Argon.getEntityOrientation(app.device.user, time, app.device.stage)] *)
  deviceUserOrientation : option Quaternion;
  (** [app.view.subviews[i].frustum] *)
  view_subviews : list PerspectiveFrustum;
  (** [app.view.viewport] *)
  view_viewport : Viewport;
  aggregator : Aggregator;
  (** [Argon.getEntityOrientationInReferenceFrame(eye, time, frame)] *)
  getEntityOrientationInReferenceFrame : VirtualEye -> R -> Entity -> option Quaternion
}.

Section Viewer.

Context `{Lib : Libraries}.

Record SerializedSubview := mkSubview {
  sv_viewport : Viewport;
  sv_projectionMatrix : Matrix4
}.

Record FrameState := mkFrameState {
  time : R;
  fs_viewport : Viewport;
  fs_subviews : list SerializedSubview;
  strict : bool
}.

(** The arguments of [createContextFrameState], as submitted to the host. *)
Record ContextFrameState := mkContextFrameState {
  cfs_time : R;
  cfs_viewport : Viewport;
  cfs_subviews : list SerializedSubview;
  cfs_eye : VirtualEye
}.

(** ** The command handlers *)

(** [Cesium.defined(x)] *)
Definition defined {A} (o : option A) : bool :=
  match o with
  | Some _ => true
  | None => false
  end.

(** [x || 0] on an optional number *)
Definition orZero (o : option R) : R := default 0 o.

(** The handler of [edu.gatech.ael.panorama.loadPanorama]; it returns the
    promise [texture.then(()=>{})], by reference into [replies]. *)
Definition loadPanorama (pano : PanoramaInfo) : M nat :=
  if decide (url pano = EmptyString) then throw ExpectedImageUrl else
  let offsetRadians := orZero (offsetDegrees pano) * CesiumMath.DEGREES_PER_RADIAN in
  (* new Argon.Cesium.Entity *)
  id ← gets nextEntity;
  modify (set_nextEntity (S id));;
  let entity :=
    if defined (longitude pano) && defined (longitude pano) then
      let positionValue :=
        Cartesian3_fromDegrees (longitude pano) (latitude pano) (orZero (height pano)) in
      let orientationValue := Transforms_headingPitchRollQuaternion positionValue 0 0 0 in
      mkEntity id (Some positionValue) (Some orientationValue)
    else mkEntity id None None in
  (* new Promise: the loader is given the one callback onLoad *)
  texture ← gets (fun st => length (promises st));
  modify (set_promises (fun ps => ps ++ [Pending]));;
  modify (set_requests (fun rs =>
    rs ++ [mkLoadRequest (url pano) (Some (ResolveTexture texture)) None]));;
  modify (set_panoramas (<[url pano :=
    mkPanorama (url pano) (longitude pano) (latitude pano) (height pano)
               (offsetDegrees pano) entity texture]>));;
  reply ← gets (fun st => length (replies st));
  modify (set_replies (fun rs => rs ++ [Pending]));;
  modify (promise_then texture (SettleReply reply));;
  mret reply.

(** The handler of [edu.gatech.ael.panorama.deletePanorama] *)
Definition deletePanorama (u : string) : M unit :=
  modify (set_panoramas (delete u)).

(** [panoSpheres[i].material]: reading it off a missing slot throws. *)
Definition materialOf (i : nat) : M Material :=
  mesh ← gets (fun st => panoSpheres st !! i);
  match mesh with
  | Some m => mret (material m)
  | None => throw (TypeError "Cannot read property 'material' of undefined")
  end.

(** [showPanorama(options)], called at clock reading [now] (the start time
    [tween.start()] takes). *)
Definition showPanorama (now : R) (options : ShowPanoramaOptions) : M unit :=
  let url := o_url options in
  let transition := default (mkTransition None None) (o_transition options) in
  easing ← (let named := resolve (easing transition) TWEEN_Easing in
            if truthy named then mret named
            else linear ← member TWEEN_Easing "Linear"; member linear "None");
  if decide (url = EmptyString) then throw ExpectedUrl else
  if negb (truthy easing) then throw UnknownEasing else
  panoOut ← gets currentPano;
  found ← gets (fun st => panoramas st !! url);
  match found with
  | None => throw (UnknownPano url)
  | Some panoIn =>
      modify (set_currentPano (Some panoIn));;
      modify (fun st => set_virtualEye
        (mkVirtualEye (eye_orientation (virtualEye st))
                      (Some (Cartesian3.ZERO, entity panoIn))) st);;
      sphereOut ← gets currentSphere;
      modify (fun st => set_currentSphere ((currentSphere st + 1) mod 2)%nat st);;
      sphereIn ← gets currentSphere;
      _ ← materialOf sphereIn;
      _ ← materialOf sphereOut;
      (* update the material for the incoming panorama *)
      modify (on_sphere sphereIn (set_material (fun m =>
        set_needsUpdate true (set_opacity 1 (set_map None m)))));;
      modify (promise_then (texture panoIn) (BindMap sphereIn));;
      (* pose, scale and render order of the spheres *)
      modify (on_sphere sphereIn (set_rotation_y
        (orZero (p_offsetDegrees panoIn) * CesiumMath.RADIANS_PER_DEGREE)));;
      modify (on_sphere sphereIn (set_scale (-1, 1, 1)));;
      modify (on_sphere sphereOut (set_scale (-0.9, 0.9, 0.9)));;
      modify (on_sphere sphereIn (set_renderOrder 0%Z));;
      modify (on_sphere sphereOut (set_renderOrder 1%Z));;
      (* TWEEN.removeAll(); new Tween(outMaterial).to({opacity:0}, duration)
         .easing(easing).start() *)
      modify (set_tweens []);;
      outMaterial ← materialOf sphereOut;
      modify (fun st => set_tweens
        (tweens st ++ [mkTween sphereOut (opacity outMaterial) 0
                               (default 1000 (duration transition)) easing now]) st);;
      modify (on_sphere sphereOut (set_material (fun m =>
        set_needsUpdate true (set_opacity 1 m))))
  end.

(** ** The update event: [TWEEN.update()] at clock reading [time] *)

(** [tween.update(time)]; it returns whether the tween stays. A zero duration
    makes the quotient an infinity in JavaScript, which the test against 1
    turns into 1 (at the start time itself the quotient is NaN, which the
    real numbers do not have). *)
Definition Tween_update (time : R) (tw : Tween) : M bool :=
  if Rlt_dec time (tw_startTime tw) then mret true else
  let elapsed :=
    if Req_dec_T (tw_duration tw) 0 then 1
    else let e := (time - tw_startTime tw) / tw_duration tw in
         if Rgt_dec e 1 then 1 else e in
  match tw_easing tw with
  | JFunction f _ =>
      let value := f elapsed in
      modify (on_sphere (tw_object tw) (set_material (fun m =>
        set_needsUpdate true
          (set_opacity (tw_valuesStart tw + (tw_valuesEnd tw - tw_valuesStart tw) * value) m))));;
      mret (if Req_dec_T elapsed 1 then false else true)
  | _ => throw (TypeError "easing is not a function")
  end.

Fixpoint TWEEN_update_loop (time : R) (kept todo : list Tween) : M unit :=
  match todo with
  | [] => mret tt
  | tw :: rest =>
      stays ← Tween_update time tw;
      if stays : bool then TWEEN_update_loop time (kept ++ [tw]) rest
      else modify (set_tweens (kept ++ rest));; TWEEN_update_loop time kept rest
  end.

Definition updateEvent (time : R) : M unit :=
  tws ← gets tweens;
  TWEEN_update_loop time [] tws.

(** ** The frame handler *)

(** [Math.min(Math.max(x, Math.PI/8), Math.PI - Math.PI/8)] *)
Definition clampFov (x : R) : R := Rmin (Rmax x (PI / 8)) (PI - PI / 8).

(** The field of view after the wheel and the pinch of the tick, starting
    from [app.view.subviews[0].frustum.fov]. *)
Definition fuseFov (fov0 : R) (agg : Aggregator) : R :=
  let fov1 :=
    match wheel agg with
    | Some diff => clampFov (fov0 - diff * 0.02)
    | None => fov0
    end in
  match pinch agg with
  | Some (startY, endY) =>
      let diff := endY - startY in
      clampFov (fov1 - diff * 0.02)
  | None => fov1
  end.

(** [aspect = width / height; isFinite(aspect) && aspect !== 0 ? aspect : 1]:
    a zero height makes the quotient an infinity or NaN. *)
Definition aspectOf (vp : Viewport) : R :=
  if Req_dec_T (vp_height vp) 0 then 1
  else if Req_dec_T (vp_width vp / vp_height vp) 0 then 1
  else vp_width vp / vp_height vp.

Definition set_fov v (f : PerspectiveFrustum) :=
  mkFrustum v (aspectRatio f) (near f) (far f) (xOffset f) (yOffset f).
Definition set_aspectRatio v (f : PerspectiveFrustum) :=
  mkFrustum (fov f) v (near f) (far f) (xOffset f) (yOffset f).

(** [subviews.forEach(...)]: the one [frustum] object is updated and read for
    each sub-view in turn. *)
Fixpoint publishSubviews (frustum : PerspectiveFrustum) (svs : list SerializedSubview)
  : PerspectiveFrustum * list SerializedSubview :=
  match svs with
  | [] => (frustum, [])
  | s :: rest =>
      let frustum' := set_aspectRatio (aspectOf (sv_viewport s)) frustum in
      let s' := mkSubview (sv_viewport s) (frustum_projectionMatrix frustum') in
      let '(last, out) := publishSubviews frustum' rest in
      (last, s' :: out)
  end.

Definition set_eye_orientation (q : Quaternion) (st : State) : State :=
  set_virtualEye (mkVirtualEye q (eye_position (virtualEye st))) st.

(** The drag of the tick, when the device gives no orientation. The angle
    of the yaw is a quotient of real numbers: a view viewport of width 0,
    for which the handler computes an infinity or NaN, is excluded by
    hypothesis where the value of the orientation matters. *)
Definition applyDrag (host : Host) (t : R) (frustum : PerspectiveFrustum) : M unit :=
  match deviceUserOrientation host, leftDrag (aggregator host) with
  | None, Some (startX, endX) =>
      pano ← gets currentPano;
      match pano with
      | None => throw (TypeError "Cannot read property 'entity' of undefined")
      | Some currentPano =>
          eye ← gets virtualEye;
          let currentOrientation :=
            getEntityOrientationInReferenceFrame host eye t (entity currentPano) in
          let dragYaw :=
            Quaternion.fromAxisAngle Cartesian3.UNIT_Y
              (fov frustum * (endX - startX) / vp_width (view_viewport host)) in
          match currentOrientation with
          | None => throw (TypeError "Cannot read property 'x' of undefined")
          | Some currentOrientation =>
              let newOrientation := Quaternion.multiply currentOrientation dragYaw in
              modify (set_eye_orientation newOrientation)
          end
      end
  | _, _ => mret tt
  end.

(** The listener of [app.device.frameStateEvent]; it returns the frame state
    it submits. *)
Definition frameStateEvent (host : Host) (frameState : FrameState) : M ContextFrameState :=
  let subviews := fs_subviews frameState in
  match deviceUserOrientation host with
  | Some deviceUserOrientation => modify (set_eye_orientation deviceUserOrientation)
  | None => mret tt
  end;;
  subviews ←
    (if strict frameState then mret subviews else
     match subviews !! 0%nat with
     | None => throw (TypeError "Cannot read property 'projectionMatrix' of undefined")
     | Some s0 =>
         let frustum := decomposePerspectiveProjectionMatrix (sv_projectionMatrix s0) in
         match view_subviews host !! 0%nat with
         | None => throw (TypeError "Cannot read property 'frustum' of undefined")
         | Some viewFrustum =>
             let frustum := set_fov (fuseFov (fov viewFrustum) (aggregator host)) frustum in
             applyDrag host (time frameState) frustum;;
             mret (publishSubviews frustum subviews).2
         end
     end);
  eye ← gets virtualEye;
  mret (mkContextFrameState (time frameState) (fs_viewport frameState) subviews eye).

(** ** Commands of a controlling session *)

Inductive Command :=
| LoadPanorama (pano : PanoramaInfo)
| DeletePanorama (u : string)
| ShowPanorama (now : R) (options : ShowPanoramaOptions).

Definition handle (c : Command) : M unit :=
  match c with
  | LoadPanorama pano => _ ← loadPanorama pano; mret tt
  | DeletePanorama u => deletePanorama u
  | ShowPanorama now options => showPanorama now options
  end.

(** The state after a sequence of commands, whether they return or throw. *)
Definition run (cs : list Command) (st : State) : State :=
  foldl (fun s c => stateOf (handle c s)) st cs.

(** ** Explicit forms of what the handlers leave behind *)

Definition fovInBounds (f : R) : Prop := PI / 8 <= f <= PI - PI / 8.

(** The easing [showPanorama] ends up with, when the default can be read. *)
Definition easingFor (transition : Transition) : jsval :=
  js_or (resolve (easing transition) TWEEN_Easing)
        (prop (prop TWEEN_Easing "Linear") "None").

Definition isUndefined (v : jsval) : bool :=
  match v with
  | JUndefined => true
  | _ => false
  end.

(** Whether the easing step of [showPanorama] gets through: the default
    [TWEEN.Easing.Linear.None] is read only when the name gives nothing. *)
Definition easingReadable (transition : Transition) : bool :=
  truthy (resolve (easing transition) TWEEN_Easing)
  || negb (isUndefined TWEEN_Easing) && negb (isUndefined (prop TWEEN_Easing "Linear")).

(** The state after a [showPanorama] that found [panoIn] and both spheres. *)
Definition shown (now : R) (options : ShowPanoramaOptions) (panoIn : Panorama)
    (st : State) : State :=
  let transition := default (mkTransition None None) (o_transition options) in
  let sphereOut := currentSphere st in
  let sphereIn := ((currentSphere st + 1) mod 2)%nat in
  let startOpacity :=
    from_option (fun m => opacity (material m)) 0 (panoSpheres st !! sphereOut) in
  let st := set_currentPano (Some panoIn) st in
  let st := set_virtualEye
    (mkVirtualEye (eye_orientation (virtualEye st))
                  (Some (Cartesian3.ZERO, entity panoIn))) st in
  let st := set_currentSphere sphereIn st in
  let st := on_sphere sphereIn (set_material (fun m =>
    set_needsUpdate true (set_opacity 1 (set_map None m)))) st in
  let st := promise_then (texture panoIn) (BindMap sphereIn) st in
  let st := on_sphere sphereIn (set_rotation_y
    (orZero (p_offsetDegrees panoIn) * CesiumMath.RADIANS_PER_DEGREE)) st in
  let st := on_sphere sphereIn (set_scale (-1, 1, 1)) st in
  let st := on_sphere sphereOut (set_scale (-0.9, 0.9, 0.9)) st in
  let st := on_sphere sphereIn (set_renderOrder 0%Z) st in
  let st := on_sphere sphereOut (set_renderOrder 1%Z) st in
  let st := set_tweens
    [mkTween sphereOut startOpacity 0 (default 1000 (duration transition))
             (easingFor transition) now] st in
  on_sphere sphereOut (set_material (fun m => set_needsUpdate true (set_opacity 1 m))) st.

(** The eye after the orientation step of the frame handler. *)
Definition afterDevice (host : Host) (st : State) : State :=
  match deviceUserOrientation host with
  | Some q => set_eye_orientation q st
  | None => st
  end.

(** The drag step of a tick has what it reads: it is skipped (the device
    gives an orientation, or nothing is dragged), or a panorama is current
    and the host knows the orientation of the eye relative to its entity. *)
Definition dragReady (host : Host) (t : R) (st : State) : Prop :=
  is_Some (deviceUserOrientation host)
  \/ leftDrag (aggregator host) = None
  \/ exists p cur,
       currentPano st = Some p /\
       getEntityOrientationInReferenceFrame host (virtualEye st) t (entity p) = Some cur.

(** The entity [loadPanorama] builds for an input, with identity [id]. *)
Definition anchorOf (pano : PanoramaInfo) (id : nat) : Entity :=
  if defined (longitude pano) && defined (longitude pano) then
    let positionValue :=
      Cartesian3_fromDegrees (longitude pano) (latitude pano) (orZero (height pano)) in
    mkEntity id (Some positionValue)
             (Some (Transforms_headingPitchRollQuaternion positionValue 0 0 0))
  else mkEntity id None None.

Definition entryOf (pano : PanoramaInfo) (st : State) : Panorama :=
  mkPanorama (url pano) (longitude pano) (latitude pano) (height pano)
             (offsetDegrees pano) (anchorOf pano (nextEntity st)) (length (promises st)).

Definition loaded (pano : PanoramaInfo) (st : State) : State :=
  {| panoramas := <[url pano := entryOf pano st]> (panoramas st);
     currentPano := currentPano st;
     panoSpheres := panoSpheres st;
     currentSphere := currentSphere st;
     virtualEye := virtualEye st;
     tweens := tweens st;
     promises := promises st ++ [Pending];
     reactions := reactions st ++ [(length (promises st), SettleReply (length (replies st)))];
     replies := replies st ++ [Pending];
     requests := requests st
                 ++ [mkLoadRequest (url pano) (Some (ResolveTexture (length (promises st)))) None];
     nextEntity := S (nextEntity st) |}.

(** ** The pointer to the current panorama *)

(** The pointer, when set, is the very entry the registry holds under its
    url (entries are told apart by the identity of their entity and the
    reference to their texture promise). *)
Definition pointerInRegistry (st : State) : Prop :=
  forall p, currentPano st = Some p -> panoramas st !! p_url p = Some p.

(** Every entry is stored under its own url. *)
Definition keyedByUrl (st : State) : Prop :=
  forall u p, panoramas st !! u = Some p -> p_url p = u.

Definition deletesCurrent (c : Command) (st : State) : Prop :=
  match c with
  | DeletePanorama u => exists p, currentPano st = Some p /\ p_url p = u
  | _ => False
  end.

Definition reloadsCurrent (c : Command) (st : State) : Prop :=
  match c with
  | LoadPanorama pano => exists p, currentPano st = Some p /\ p_url p = url pano
  | _ => False
  end.

(** No command of the sequence, at the time it is handled, is about the url
    of the current panorama in the way [touches] tells. *)
Fixpoint never (touches : Command -> State -> Prop) (cs : list Command) (st : State) : Prop :=
  match cs with
  | [] => True
  | c :: rest => ~ touches c st /\ never touches rest (stateOf (handle c st))
  end.

(** ** The crossfade scenario: register two panoramas, show the first, then
    show the second with a duration of 1000 *)

Definition crossfade (info1 info2 : PanoramaInfo) (first : option Transition)
    (now1 now2 : R) : list Command :=
  [ LoadPanorama info1;
    LoadPanorama info2;
    ShowPanorama now1 (mkShowPanoramaOptions (url info1) first);
    ShowPanorama now2
      (mkShowPanoramaOptions (url info2) (Some (mkTransition None (Some 1000)))) ].

(** The share of its duration a tween has run at time [t], at most 1. *)
Definition elapsedAt (tw : Tween) (t : R) : R :=
  Rmin 1 ((t - tw_startTime tw) / tw_duration tw).

(** The opacity of the material in slot [i]. *)
Definition slotOpacity (i : nat) (st : State) : option R :=
  (fun m => opacity (material m)) <$> panoSpheres st !! i.

End Viewer.


(** ** Everything that happens to the viewer

    The handlers run one at a time, each to its end: a command of the
    controlling session, the loader finishing a request, an update event, a
    frame event. *)

Section Events.

Context `{Lib : Libraries}.

Inductive Event :=
| OnCommand (c : Command)
| OnLoader (i : nat) (o : LoaderOutcome)
| OnUpdate (t : R)
| OnFrame (host : Host) (frameState : FrameState).

Definition step (e : Event) (st : State) : State :=
  match e with
  | OnCommand c => stateOf (handle c st)
  | OnLoader i o => loaderEvent i o st
  | OnUpdate t => stateOf (updateEvent t st)
  | OnFrame host frameState => stateOf (frameStateEvent host frameState st)
  end.

Definition steps (es : list Event) (st : State) : State :=
  foldl (fun s e => step e s) st es.

(** The squared norm of a quaternion; it is 1 for a rotation. *)
Definition normSq (q : Quaternion) : R :=
  qx q * qx q + qy q * qy q + qz q * qz q + qw q * qw q.

(** The two slots are there, the active index is one of them, and the fade,
    when there is one, is alone and on the slot that is not active. *)
Definition slotsInvariant (st : State) : Prop :=
  length (panoSpheres st) = 2%nat /\
  (currentSphere st < 2)%nat /\
  (tweens st = [] \/
   exists tw, tweens st = [tw] /\ tw_object tw = ((currentSphere st + 1) mod 2)%nat).

(** Every entry of the registry is stored under its own url, which is not
    empty, and refers to a promise and an entity that were made. *)
Definition registryInvariant (st : State) : Prop :=
  forall u p,
    panoramas st !! u = Some p ->
    u <> EmptyString /\ p_url p = u /\
    (texture p < length (promises st))%nat /\
    (entity_id (entity p) < nextEntity st)%nat.

(** Two entries under different urls share neither entity nor texture. *)
Definition entriesDistinct (st : State) : Prop :=
  forall u1 u2 p1 p2,
    panoramas st !! u1 = Some p1 ->
    panoramas st !! u2 = Some p2 ->
    u1 <> u2 ->
    entity_id (entity p1) <> entity_id (entity p2) /\ texture p1 <> texture p2.

(** The texture bound to the material in slot [i]. *)
Definition slotMap (i : nat) (st : State) : option (option Texture) :=
  (fun m => map (material m)) <$> panoSpheres st !! i.

(** What a loader event leaves alone: it settles promises, answers the
    replies chained on them and binds textures, nothing else. *)
Definition besidesTextures (st : State) :=
  (panoramas st, currentPano st, currentSphere st, virtualEye st, tweens st,
   requests st, nextEntity st,
   length (panoSpheres st), length (promises st), length (replies st)).

(** A mesh after a texture was bound to its material:
    [inMaterial.map = texture; inMaterial.needsUpdate = true]. *)
Definition withTexture (tex : Texture) (m : Mesh) : Mesh :=
  set_material (fun mat => set_needsUpdate true (set_map (Some tex) mat)) m.

(** The texture a promise holds already. *)
Definition loadedTexture (st : State) (p : nat) : option Texture :=
  match promises st !! p with
  | Some (Fulfilled tex) => Some tex
  | _ => None
  end.

End Events.
(** ** A concrete instance of the libraries, for runs on concrete input

    A perspective matrix is represented by the frustum it encodes, geodetic
    coordinates are kept as given, and the easing table holds the linear and
    the quadratic family of tween.js. *)

Definition sampleEasing : jsval :=
  JObject
    [ ("Linear"%string, JObject [ ("None"%string, JFunction (fun k => k) []) ]);
      ("Quadratic"%string, JObject
         [ ("In"%string, JFunction (fun k => k * k) []);
           ("Out"%string, JFunction (fun k => k * (2 - k)) []);
           ("InOut"%string, JFunction (fun k =>
              let k := k * 2 in
              if Rlt_dec k 1 then 0.5 * k * k
              else let k := k - 1 in - 0.5 * (k * (k - 2) - 1)) []) ]) ].

Definition sampleLibraries : Libraries :=
  {| Matrix4 := PerspectiveFrustum;
     Cartesian3_fromDegrees := fun lon lat h => mkCartesian3 (default 0 lon) (default 0 lat) h;
     Transforms_headingPitchRollQuaternion := fun _ _ _ _ => mkQuaternion 0 0 0 1;
     decomposePerspectiveProjectionMatrix := fun m => m;
     frustum_projectionMatrix := fun f => f;
     TWEEN_Easing := sampleEasing |}.

(** A panorama given a longitude and no latitude. *)
Definition longitudeOnly : PanoramaInfo :=
  mkPanoramaInfo "a.jpg" (Some 10) None None None.


(** Two panoramas without a geo-anchor, and the state with the first
    registered. *)
Definition p1Info : PanoramaInfo := mkPanoramaInfo "p1" None None None None.
Definition p2Info : PanoramaInfo := mkPanoramaInfo "p2" None None None None.

Definition withP1 : State := stateOf (loadPanorama (Lib := sampleLibraries) p1Info init).

(** A [showPanorama] of the first panorama that names an easing the table
    does not have. *)
Definition bogusEasing : ShowPanoramaOptions :=
  mkShowPanoramaOptions "p1" (Some (mkTransition (Some "Bogus.Easing"%string) None)).

(** A tick without device orientation, with a horizontal drag of 100 pixels
    on a viewport 200 wide, a field of view of a quarter turn, and a host
    that reports the eye turned by a half turn about X. *)
Definition halfTurnX : Quaternion := mkQuaternion 1 0 0 0.

Definition dragHost : Host :=
  mkHost None [mkFrustum (PI / 2) 2 1 1000 0 0] (mkViewport 0 0 200 100)
         (mkAggregator None None (Some (0, 100)))
         (fun _ _ _ => Some halfTurnX).

Definition monoFrame : FrameState (Lib := sampleLibraries) :=
  mkFrameState 0 (mkViewport 0 0 200 100)
    [mkSubview (Lib := sampleLibraries) (mkViewport 0 0 200 100) (mkFrustum 1 2 1 1000 0 0)] false.

(** A stereo tick on a device that gives its orientation: the two
    projections differ in their horizontal offset. *)
Definition sensorHost : Host :=
  mkHost (Some (mkQuaternion 0 0 0 1)) [mkFrustum (PI / 2) 1 1 1000 0 0]
         (mkViewport 0 0 200 100) (mkAggregator None None None)
         (fun _ _ _ => None).

Definition leftEye : SerializedSubview (Lib := sampleLibraries) :=
  mkSubview (Lib := sampleLibraries) (mkViewport 0 0 100 100) (mkFrustum 1 1 1 1000 0 0).
Definition rightEye : SerializedSubview (Lib := sampleLibraries) :=
  mkSubview (Lib := sampleLibraries) (mkViewport 100 0 100 100) (mkFrustum 1 1 1 1000 1 0).

Definition stereoFrame : FrameState (Lib := sampleLibraries) :=
  mkFrameState 0 (mkViewport 0 0 200 100) [leftEye; rightEye] false.

(** The state with the first panorama registered and shown. *)
Definition showingP1 : State :=
  run (Lib := sampleLibraries)
      [LoadPanorama p1Info; ShowPanorama 0 (mkShowPanoramaOptions "p1" None)] init.

(** Registering the first panorama again while it is shown. *)
Definition reloadWhileShown : list Command :=
  [ LoadPanorama p1Info;
    ShowPanorama 0 (mkShowPanoramaOptions "p1" None);
    LoadPanorama p1Info ].

(** A session that registers again, deletes and fails to show, but never
    about the url of the panorama shown at that time. *)
Definition tidySession : list Command :=
  [ LoadPanorama p1Info;
    LoadPanorama p2Info;
    ShowPanorama 0 (mkShowPanoramaOptions "p1" None);
    LoadPanorama p2Info;
    ShowPanorama 5 (mkShowPanoramaOptions "nowhere.jpg" None);
    DeletePanorama "p2";
    ShowPanorama 9 (mkShowPanoramaOptions "p1" None) ].

(** ** More concrete inputs *)

(** A geo-anchored registration of the url of the first panorama. *)
Definition geoP1 : PanoramaInfo :=
  mkPanoramaInfo "p1" (Some 10) (Some 20) None (Some 90).

Definition showP1 : ShowPanoramaOptions := mkShowPanoramaOptions "p1" None.

(** Transitions that name an easing function and an easing family. *)
Definition quadraticShow : ShowPanoramaOptions :=
  mkShowPanoramaOptions "p1"
    (Some (mkTransition (Some "Quadratic.InOut"%string) (Some 500))).

Definition familyShow : ShowPanoramaOptions :=
  mkShowPanoramaOptions "p1" (Some (mkTransition (Some "Linear"%string) None)).

Definition p1Image : Texture := mkTexture "p1.jpg" LinearMipMapLinearFilter.

(** The fade the first show of [showingP1] starts, and the sphere it is on. *)
Definition p1Fade : Tween := mkTween 0 1 0 1000 (JFunction (fun k => k) []) 0.

Definition fadingMesh : Mesh :=
  mkMesh (mkMaterial None 1 true true) 0 (-0.9, 0.9, 0.9) 1%Z.

(** The sphere that first show brings in, before its image has loaded. *)
Definition incomingMesh : Mesh :=
  mkMesh (mkMaterial None 1 true true) (0 * (PI / 180)) (-1, 1, 1) 0%Z.

(** A strict tick and a tick that is not strict, both without sub-views. *)
Definition strictFrame : FrameState (Lib := sampleLibraries) :=
  mkFrameState 0 (mkViewport 0 0 200 100) [] true.

Definition emptyFrame : FrameState (Lib := sampleLibraries) :=
  mkFrameState 0 (mkViewport 0 0 200 100) [] false.

(** A short life of the viewer: a registration, a tick, an update. *)
Definition shortLife : list (Event (Lib := sampleLibraries)) :=
  [ OnCommand (LoadPanorama p1Info);
    OnFrame sensorHost stereoFrame;
    OnLoader 0 (ImageLoaded p1Image);
    OnUpdate 3 ].
(** * Properties *)

Example split_dot_two : split_dot "Quadratic.InOut" = ["Quadratic"%string; "InOut"%string].
Proof. reflexivity. Qed.

Example split_dot_trailing : split_dot "a." = ["a"%string; ""%string].
Proof. reflexivity. Qed.

(** ** The field of view stays in its bounds *)

Lemma clampFov_bounds (x : R) : fovInBounds (clampFov x).
Proof.
  unfold fovInBounds, clampFov.
  pose proof PI_RGT_0 as Hpi.
  split.
  - apply Rmin_glb; [apply Rmax_r | lra].
  - apply Rmin_r.
Qed.

(** C4: whatever the wheel and pinch deltas of a tick are, the field of view
    the fusion step produces from a field of view within bounds lies in
    [PI/8, PI - PI/8]. *)
Theorem fuseFov_in_bounds (fov0 : R) (agg : Aggregator) :
  fovInBounds fov0 -> fovInBounds (fuseFov fov0 agg).
Proof.
  intros Hin. unfold fuseFov.
  destruct (pinch agg) as [[startY endY]|].
  - apply clampFov_bounds.
  - destruct (wheel agg) as [diff|]; [apply clampFov_bounds | exact Hin].
Qed.

Lemma fuseFov_in_bounds_witness :
  fovInBounds (PI / 2) /\
  fovInBounds (fuseFov (PI / 2) (mkAggregator (Some 1000000) (Some (0, -5000000)) None)).
Proof.
  assert (fovInBounds (PI / 2)) as Hin.
  { unfold fovInBounds. pose proof PI_RGT_0. lra. }
  split; [exact Hin | apply (fuseFov_in_bounds _ _ Hin)].
Defined.

Section Properties.

Context `{Lib : Libraries}.

Ltac step_M :=
  unfold mbind, M_bind, mret, M_ret, gets, modify, throw; simpl.

(** ** loadPanorama *)

Lemma loadPanorama_ok (pano : PanoramaInfo) (st : State) :
  url pano <> EmptyString ->
  loadPanorama pano st = Ok (length (replies st)) (loaded pano st).
Proof.
  intros Hurl. unfold loadPanorama.
  destruct (decide (url pano = EmptyString)) as [He|_]; [contradiction|].
  step_M. unfold promise_then. simpl.
  rewrite lookup_app_r by lia.
  replace (length (promises st) - length (promises st))%nat with 0%nat by lia.
  reflexivity.
Qed.

Lemma loadPanorama_empty_url (pano : PanoramaInfo) (st : State) :
  url pano = EmptyString -> loadPanorama pano st = Throw ExpectedImageUrl st.
Proof.
  intros Hurl. unfold loadPanorama.
  destruct (decide (url pano = EmptyString)); [reflexivity | contradiction].
Qed.

(** C1: after a [loadPanorama] with a url, the lookup of that url returns an
    entry whose entity carries a position and an orientation exactly when a
    longitude was supplied: the handler tests the longitude twice and the
    latitude never. *)
Theorem loadPanorama_anchor_iff_longitude (pano : PanoramaInfo) (st : State) :
  url pano <> EmptyString ->
  exists p,
    panoramas (stateOf (loadPanorama pano st)) !! url pano = Some p /\
    (is_Some (position (entity p)) <-> is_Some (longitude pano)) /\
    (is_Some (orientation (entity p)) <-> is_Some (longitude pano)).
Proof.
  intros Hurl. rewrite (loadPanorama_ok _ _ Hurl). simpl.
  exists (entryOf pano st). split; [apply lookup_insert_eq|].
  unfold entryOf, anchorOf. simpl.
  destruct (longitude pano) as [lon|]; simpl.
  - split; split; eauto.
  - split; split; intros [x Hx]; discriminate.
Qed.


(** ** showPanorama *)

Local Arguments Nat.modulo : simpl never.

(** The easing step of [showPanorama]: the value of the name when it is
    truthy, the linear easing otherwise; reading the default off a table
    without a [Linear] entry throws. *)
Lemma easing_step (transition : Transition) (st : State) :
  (if truthy (resolve (easing transition) TWEEN_Easing)
   then mret (resolve (easing transition) TWEEN_Easing)
   else linear ← member TWEEN_Easing "Linear"; member linear "None") st
  = if easingReadable transition then Ok (easingFor transition) st
    else Throw (TypeError "Cannot read property of undefined") st.
Proof.
  unfold easingReadable, easingFor, js_or.
  destruct (truthy (resolve (easing transition) TWEEN_Easing)) eqn:Ht; [reflexivity|].
  destruct TWEEN_Easing as [| | |ps|g ps]; try reflexivity;
    simpl; step_M; destruct (assoc "Linear" ps); reflexivity.
Qed.

Lemma linear_is_function (f : R -> R) (props : list (string * jsval))
    (transition : Transition) :
  prop (prop TWEEN_Easing "Linear") "None" = JFunction f props ->
  easingReadable transition = true /\ truthy (easingFor transition) = true.
Proof.
  intros Hlin. unfold easingReadable, easingFor, js_or.
  destruct (truthy (resolve (easing transition) TWEEN_Easing)) eqn:Ht.
  - split; [reflexivity | exact Ht].
  - rewrite Hlin. split; [|reflexivity].
    clear Ht.
    destruct TWEEN_Easing as [| | |ps|g ps]; simpl in *; try discriminate;
      destruct (assoc "Linear" ps); simpl in *; try discriminate; reflexivity.
Qed.

Lemma toggle_ne (c : nat) : ((c + 1) mod 2)%nat <> c.
Proof.
  pose proof (Nat.mod_upper_bound (c + 1) 2) as Hlt.
  destruct c as [|[|c]]; [vm_compute; lia | vm_compute; lia | lia].
Qed.

Lemma promise_then_spheres_ne (p i j : nat) (st : State) :
  i <> j ->
  panoSpheres (promise_then p (BindMap i) st) !! j = panoSpheres st !! j.
Proof.
  intros Hij. unfold promise_then.
  destruct (promises st !! p) as [[|tex|reason]|]; simpl; try reflexivity.
  apply list_lookup_alter_ne. exact Hij.
Qed.

Lemma materialOf_Some (i : nat) (m : Mesh) (st : State) :
  panoSpheres st !! i = Some m -> materialOf i st = Ok (material m) st.
Proof. intros Hm. unfold materialOf. step_M. rewrite Hm. reflexivity. Qed.

Lemma materialOf_None (i : nat) (st : State) :
  panoSpheres st !! i = None ->
  materialOf i st = Throw (TypeError "Cannot read property 'material' of undefined") st.
Proof. intros Hm. unfold materialOf. step_M. rewrite Hm. reflexivity. Qed.

Lemma set_tweens_twice (a b : list Tween) (st : State) :
  set_tweens a (set_tweens b st) = set_tweens a st.
Proof. reflexivity. Qed.

Lemma bind_eq {A B} (m : M A) (k : A -> M B) (st : State) :
  (m ≫= k) st = match m st with
                | Ok a st' => k a st'
                | Throw e st' => Throw e st'
                end.
Proof. reflexivity. Qed.

Lemma showPanorama_unfold (now : R) (options : ShowPanoramaOptions) (st : State) :
  showPanorama now options st =
  (let url := o_url options in
   let transition := default (mkTransition None None) (o_transition options) in
   if negb (easingReadable transition)
   then Throw (TypeError "Cannot read property of undefined") st else
   if decide (url = EmptyString) then Throw ExpectedUrl st else
   if negb (truthy (easingFor transition)) then Throw UnknownEasing st else
   match panoramas st !! url with
   | None => Throw (UnknownPano url) st
   | Some panoIn =>
       let st1 := set_currentSphere ((currentSphere st + 1) mod 2)%nat
         (set_virtualEye (mkVirtualEye (eye_orientation (virtualEye st))
                            (Some (Cartesian3.ZERO, entity panoIn)))
            (set_currentPano (Some panoIn) st)) in
       match panoSpheres st !! ((currentSphere st + 1) mod 2)%nat,
             panoSpheres st !! currentSphere st with
       | Some _, Some _ => Ok tt (shown now options panoIn st)
       | _, _ => Throw (TypeError "Cannot read property 'material' of undefined") st1
       end
   end).
Proof.
  unfold showPanorama. cbv zeta.
  rewrite bind_eq, easing_step.
  destruct (easingReadable _); [|reflexivity].
  change (negb true) with false. cbv iota.
  destruct (decide (o_url options = EmptyString)) as [He|Hne]; [reflexivity|].
  destruct (truthy (easingFor _)); [|reflexivity].
  change (negb true) with false. cbv iota.
  unfold gets, modify, throw.
  do 2 (rewrite bind_eq; cbv beta iota).
  destruct (panoramas st !! o_url options) as [panoIn|]; [|reflexivity].
  pose proof (toggle_ne (currentSphere st)) as Hne2.
  do 5 (rewrite bind_eq; cbv beta iota).
  cbn [currentSphere set_currentSphere set_virtualEye set_currentPano virtualEye
       eye_orientation panoSpheres].
  set (sIn := ((currentSphere st + 1) mod 2)%nat) in *.
  set (st1 := set_currentSphere sIn _).
  destruct (panoSpheres st !! sIn) as [mIn|] eqn:HIn.
  2:{ rewrite bind_eq, (materialOf_None sIn st1) by exact HIn. reflexivity. }
  rewrite bind_eq, (materialOf_Some sIn mIn st1) by exact HIn.
  destruct (panoSpheres st !! currentSphere st) as [mOut|] eqn:HOut.
  2:{ rewrite bind_eq, (materialOf_None _ st1) by exact HOut. reflexivity. }
  rewrite bind_eq, (materialOf_Some _ mOut st1) by exact HOut.
  do 8 (rewrite bind_eq; cbv beta iota).
  set (st2 := set_tweens [] _).
  assert (panoSpheres st2 !! currentSphere st
          = Some (set_renderOrder 1%Z (set_scale (-0.9, 0.9, 0.9) mOut))) as Hout2.
  { subst st2. cbn [panoSpheres set_tweens on_sphere set_panoSpheres].
    rewrite list_lookup_alter_eq, list_lookup_alter_ne by exact Hne2.
    rewrite list_lookup_alter_eq.
    rewrite !list_lookup_alter_ne by exact Hne2.
    rewrite promise_then_spheres_ne by exact Hne2.
    cbn [panoSpheres set_tweens on_sphere set_panoSpheres].
    rewrite list_lookup_alter_ne by exact Hne2.
    subst st1. cbn [panoSpheres set_currentSphere set_virtualEye set_currentPano].
    rewrite HOut. reflexivity. }
  rewrite bind_eq, (materialOf_Some _ _ st2 Hout2).
  rewrite bind_eq. cbv beta iota.
  unfold shown. cbv zeta. fold sIn. rewrite HOut.
  subst st2. rewrite set_tweens_twice.
  cbn [material set_renderOrder set_scale from_option app].
  reflexivity.
Qed.

Lemma showPanorama_never_unknown_easing (f : R -> R) (props : list (string * jsval))
    (now : R) (options : ShowPanoramaOptions) (st : State) :
  prop (prop TWEEN_Easing "Linear") "None" = JFunction f props ->
  thrown (showPanorama now options st) <> Some UnknownEasing.
Proof.
  intros Hlin. rewrite showPanorama_unfold. cbv zeta.
  destruct (linear_is_function f props
              (default (mkTransition None None) (o_transition options)) Hlin) as [Hr Ht].
  rewrite Hr, Ht. simpl.
  destruct (decide (o_url options = EmptyString)); [discriminate|].
  destruct (panoramas st !! o_url options); [|discriminate].
  destruct (panoSpheres st !! ((currentSphere st + 1) mod 2)%nat); [|discriminate].
  destruct (panoSpheres st !! currentSphere st); discriminate.
Qed.

(** C2: a [showPanorama] of a registered url whose easing name resolves to
    nothing does not fail: it returns, and the fade it starts uses the
    default easing [TWEEN.Easing.Linear.None]. *)
Theorem showPanorama_unknown_easing_defaults (f : R -> R) (props : list (string * jsval))
    (now : R) (options : ShowPanoramaOptions) (st : State) (panoIn : Panorama)
    (mIn mOut : Mesh) :
  prop (prop TWEEN_Easing "Linear") "None" = JFunction f props ->
  truthy (resolve (easing (default (mkTransition None None) (o_transition options)))
                  TWEEN_Easing) = false ->
  o_url options <> EmptyString ->
  panoramas st !! o_url options = Some panoIn ->
  panoSpheres st !! ((currentSphere st + 1) mod 2)%nat = Some mIn ->
  panoSpheres st !! currentSphere st = Some mOut ->
  exists st',
    showPanorama now options st = Ok tt st' /\
    tw_easing <$> tweens st' = [JFunction f props].
Proof.
  intros Hlin Hname Hurl Hreg HIn HOut.
  rewrite showPanorama_unfold. cbv zeta.
  destruct (linear_is_function f props
              (default (mkTransition None None) (o_transition options)) Hlin) as [Hr Ht].
  rewrite Hr, Ht. simpl negb. cbv iota.
  destruct (decide (o_url options = EmptyString)); [contradiction|].
  rewrite Hreg, HIn, HOut.
  eexists. split; [reflexivity|].
  unfold shown. simpl. unfold easingFor, js_or. rewrite Hname, Hlin. reflexivity.
Qed.

(** C9: a [showPanorama] of a url that is not registered throws and leaves
    the whole state as it was, the pointer to the current panorama, the eye,
    both spheres and the active slot among the rest; the error is the
    not-found one ('Unknown pano'). A call without a url (the empty url) is
    the case of the missing url: it is turned down before the lookup with
    the validation error ('Expected a url'), the state unchanged as well. *)
Theorem showPanorama_unregistered_url (f : R -> R) (props : list (string * jsval))
    (now : R) (options : ShowPanoramaOptions) (st : State) :
  prop (prop TWEEN_Easing "Linear") "None" = JFunction f props ->
  panoramas st !! o_url options = None ->
  exists e,
    showPanorama now options st = Throw e st /\
    errorKind e = if decide (o_url options = EmptyString)
                  then ValidationError else NotFoundError.
Proof.
  intros Hlin Hreg. rewrite showPanorama_unfold. cbv zeta.
  destruct (linear_is_function f props
              (default (mkTransition None None) (o_transition options)) Hlin) as [Hr Ht].
  rewrite Hr, Ht. simpl negb. cbv iota.
  destruct (decide (o_url options = EmptyString)).
  - exists ExpectedUrl. split; reflexivity.
  - rewrite Hreg. exists (UnknownPano (o_url options)). split; reflexivity.
Qed.

(** ** The promise returned by loadPanorama *)

Lemma runReaction_replies_length (settled : PromiseState Texture) (r : Reaction) (st : State) :
  length (replies (runReaction settled r st)) = length (replies st).
Proof.
  destruct r as [slot|k], settled as [|tex|reason]; simpl; try reflexivity;
    apply length_insert.
Qed.

Lemma runReaction_keeps_fulfilled (tex : Texture) (r : Reaction) (st : State) (k : nat) :
  replies st !! k = Some (Fulfilled tt) ->
  replies (runReaction (Fulfilled tex) r st) !! k = Some (Fulfilled tt).
Proof.
  intros Hk. destruct r as [slot|k']; simpl; [exact Hk|].
  destruct (decide (k' = k)) as [->|Hne].
  - apply list_lookup_insert_eq. apply lookup_lt_Some in Hk. exact Hk.
  - rewrite list_lookup_insert_ne by exact Hne. exact Hk.
Qed.

Lemma run_reactions_fulfilled (tex : Texture) (rs : list (nat * Reaction)) :
  forall (st : State) (k : nat),
    replies st !! k = Some (Fulfilled tt) ->
    replies (foldl (fun s pr => runReaction (Fulfilled tex) pr.2 s) st rs) !! k
    = Some (Fulfilled tt).
Proof.
  induction rs as [|pr rs IH]; intros st k Hk; simpl; [exact Hk|].
  apply IH. apply runReaction_keeps_fulfilled. exact Hk.
Qed.

Lemma run_reactions_settles (tex : Texture) (rs : list (nat * Reaction)) :
  forall (st : State) (p k : nat),
    (p, SettleReply k) ∈ rs ->
    (k < length (replies st))%nat ->
    replies (foldl (fun s pr => runReaction (Fulfilled tex) pr.2 s) st rs) !! k
    = Some (Fulfilled tt).
Proof.
  induction rs as [|pr rs IH]; intros st p k Hin Hlen; [inversion Hin|].
  simpl. apply elem_of_cons in Hin as [<-|Hin].
  - apply run_reactions_fulfilled. simpl. apply list_lookup_insert_eq. exact Hlen.
  - apply (IH _ p); [exact Hin|]. rewrite runReaction_replies_length. exact Hlen.
Qed.

(** When the loader reports the texture of a [loadPanorama] as loaded, the
    promise the command returned is fulfilled. *)
Lemma loadPanorama_reply_fulfilled_on_load (pano : PanoramaInfo) (st : State) (tex : Texture) :
  url pano <> EmptyString ->
  exists reply st1,
    loadPanorama pano st = Ok reply st1 /\
    replies (loaderEvent (length (requests st)) (ImageLoaded tex) st1) !! reply
    = Some (Fulfilled tt).
Proof.
  intros Hurl. rewrite (loadPanorama_ok _ _ Hurl).
  eexists _, _. split; [reflexivity|].
  unfold loaderEvent. cbn [requests loaded].
  rewrite lookup_app_r by lia.
  replace (length (requests st) - length (requests st))%nat with 0%nat by lia.
  cbn [lookup list_lookup req_onLoad runOnLoad].
  unfold settle. cbn [promises loaded].
  rewrite lookup_app_r by lia.
  replace (length (promises st) - length (promises st))%nat with 0%nat by lia.
  cbn [lookup list_lookup].
  apply (run_reactions_settles _ _ _ (length (promises st))).
  - apply list_elem_of_filter. split; [reflexivity|].
    cbn [reactions loaded]. apply elem_of_app. right. apply list_elem_of_singleton. reflexivity.
  - cbn. rewrite length_app. simpl. lia.
Qed.

(** C3: when the loader reports the fetch of the texture of a
    [loadPanorama] as failed, nothing happens: the handler gave the loader
    no error callback, the state stays as it was and the promise the command
    returned stays pending, neither fulfilled nor rejected. *)
Theorem loadPanorama_failure_leaves_reply_pending
    (pano : PanoramaInfo) (st : State) (reason : string) :
  url pano <> EmptyString ->
  exists reply st1,
    loadPanorama pano st = Ok reply st1 /\
    (req_onError <$> requests st1 !! length (requests st)) = Some None /\
    loaderEvent (length (requests st)) (ImageFailed reason) st1 = st1 /\
    replies st1 !! reply = Some Pending.
Proof.
  intros Hurl. rewrite (loadPanorama_ok _ _ Hurl).
  eexists _, _. split; [reflexivity|].
  assert (requests (loaded pano st) !! length (requests st)
          = Some (mkLoadRequest (url pano) (Some (ResolveTexture (length (promises st)))) None))
    as Hreq.
  { cbn [requests loaded]. rewrite lookup_app_r by lia.
    replace (length (requests st) - length (requests st))%nat with 0%nat by lia.
    reflexivity. }
  split; [rewrite Hreq; reflexivity|].
  split.
  - unfold loaderEvent. rewrite Hreq. reflexivity.
  - cbn [replies loaded]. rewrite lookup_app_r by lia.
    replace (length (replies st) - length (replies st))%nat with 0%nat by lia.
    reflexivity.
Qed.

(** ** The frame handler *)

Lemma applyDrag_skipped (host : Host) (t : R) (frustum : PerspectiveFrustum) (st : State) :
  is_Some (deviceUserOrientation host) \/ leftDrag (aggregator host) = None ->
  applyDrag host t frustum st = Ok tt st.
Proof.
  intros [[q Hq]|Hd]; unfold applyDrag.
  - rewrite Hq. reflexivity.
  - rewrite Hd. destruct (deviceUserOrientation host); reflexivity.
Qed.

Lemma applyDrag_without_pano (host : Host) (t : R) (frustum : PerspectiveFrustum)
    (st : State) (d : R * R) :
  deviceUserOrientation host = None ->
  leftDrag (aggregator host) = Some d ->
  currentPano st = None ->
  applyDrag host t frustum st
  = Throw (TypeError "Cannot read property 'entity' of undefined") st.
Proof.
  intros Hdev Hdrag Hcur. unfold applyDrag. rewrite Hdev, Hdrag.
  destruct d as [startX endX]. step_M. rewrite Hcur. reflexivity.
Qed.

Lemma applyDrag_turns (host : Host) (t : R) (frustum : PerspectiveFrustum)
    (st : State) (startX endX : R) (p : Panorama) (cur : Quaternion) :
  deviceUserOrientation host = None ->
  leftDrag (aggregator host) = Some (startX, endX) ->
  currentPano st = Some p ->
  getEntityOrientationInReferenceFrame host (virtualEye st) t (entity p) = Some cur ->
  applyDrag host t frustum st
  = Ok tt (set_eye_orientation
             (Quaternion.multiply cur
                (Quaternion.fromAxisAngle Cartesian3.UNIT_Y
                   (fov frustum * (endX - startX) / vp_width (view_viewport host))))
             st).
Proof.
  intros Hdev Hdrag Hcur Hrel. unfold applyDrag. rewrite Hdev, Hdrag.
  step_M. rewrite Hcur. step_M. rewrite Hrel. reflexivity.
Qed.

(** A tick that is not strict and has a first sub-view, on a host that has a
    first view: the handler is the drag step, followed by the publication. *)
Lemma frameStateEvent_nonstrict (host : Host) (frameState : FrameState) (st : State)
    (s0 : SerializedSubview) (viewFrustum : PerspectiveFrustum) :
  strict frameState = false ->
  fs_subviews frameState !! 0%nat = Some s0 ->
  view_subviews host !! 0%nat = Some viewFrustum ->
  frameStateEvent host frameState st =
  (let frustum :=
     set_fov (fuseFov (fov viewFrustum) (aggregator host))
             (decomposePerspectiveProjectionMatrix (sv_projectionMatrix s0)) in
   match applyDrag host (time frameState) frustum (afterDevice host st) with
   | Ok _ st1 =>
       Ok (mkContextFrameState (time frameState) (fs_viewport frameState)
             (publishSubviews frustum (fs_subviews frameState)).2 (virtualEye st1)) st1
   | Throw e st1 => Throw e st1
   end).
Proof.
  intros Hstrict Hs0 Hv0. unfold frameStateEvent, afterDevice.
  rewrite Hstrict, Hs0, Hv0. cbv zeta.
  destruct (deviceUserOrientation host) as [q|]; step_M;
    match goal with
    | |- context [applyDrag ?h ?t ?f ?s] => destruct (applyDrag h t f s)
    end; reflexivity.
Qed.

(** A strict tick publishes the sub-views of the host as they are, and never
    throws. *)
Lemma frameStateEvent_strict (host : Host) (frameState : FrameState) (st : State) :
  strict frameState = true ->
  frameStateEvent host frameState st
  = Ok (mkContextFrameState (time frameState) (fs_viewport frameState)
          (fs_subviews frameState) (virtualEye (afterDevice host st)))
       (afterDevice host st).
Proof.
  intros Hstrict. unfold frameStateEvent, afterDevice. rewrite Hstrict.
  destruct (deviceUserOrientation host); reflexivity.
Qed.

(** C5: on a tick that is not strict, without device orientation and with a
    horizontal drag, the frame handler throws when no panorama was shown yet:
    it reads [currentPano.entity] off the unset pointer, and nothing is
    published. *)
Theorem frameStateEvent_drag_without_pano_throws
    (host : Host) (frameState : FrameState) (st : State)
    (s0 : SerializedSubview) (viewFrustum : PerspectiveFrustum) (d : R * R) :
  strict frameState = false ->
  fs_subviews frameState !! 0%nat = Some s0 ->
  view_subviews host !! 0%nat = Some viewFrustum ->
  deviceUserOrientation host = None ->
  leftDrag (aggregator host) = Some d ->
  currentPano st = None ->
  frameStateEvent host frameState st
  = Throw (TypeError "Cannot read property 'entity' of undefined") st.
Proof.
  intros Hstrict Hs0 Hv0 Hdev Hdrag Hcur.
  rewrite (frameStateEvent_nonstrict _ _ _ _ _ Hstrict Hs0 Hv0). cbv zeta.
  unfold afterDevice. rewrite Hdev.
  rewrite (applyDrag_without_pano _ _ _ _ _ Hdev Hdrag Hcur). reflexivity.
Qed.

(** C7: on a tick that is not strict, without device orientation and with a
    horizontal drag, the eye orientation relative to the entity of the
    current panorama is multiplied on the right by a yaw about Y of angle
    fov * (dragDeltaX / viewportWidth): the new orientation is
    currentOrientation * yaw, and it is the one published. *)
Theorem frameStateEvent_drag_right_multiplies
    (host : Host) (frameState : FrameState) (st : State)
    (s0 : SerializedSubview) (viewFrustum : PerspectiveFrustum)
    (startX endX : R) (p : Panorama) (cur : Quaternion) :
  strict frameState = false ->
  fs_subviews frameState !! 0%nat = Some s0 ->
  view_subviews host !! 0%nat = Some viewFrustum ->
  deviceUserOrientation host = None ->
  leftDrag (aggregator host) = Some (startX, endX) ->
  currentPano st = Some p ->
  getEntityOrientationInReferenceFrame host (virtualEye st) (time frameState) (entity p)
  = Some cur ->
  let yaw :=
    Quaternion.fromAxisAngle Cartesian3.UNIT_Y
      (fuseFov (fov viewFrustum) (aggregator host)
       * ((endX - startX) / vp_width (view_viewport host))) in
  exists cfs st',
    frameStateEvent host frameState st = Ok cfs st' /\
    eye_orientation (virtualEye st') = Quaternion.multiply cur yaw /\
    cfs_eye cfs = virtualEye st'.
Proof.
  intros Hstrict Hs0 Hv0 Hdev Hdrag Hcur Hrel yaw.
  rewrite (frameStateEvent_nonstrict _ _ _ _ _ Hstrict Hs0 Hv0). cbv zeta.
  unfold afterDevice. rewrite Hdev.
  rewrite (applyDrag_turns _ _ _ _ _ _ _ _ Hdev Hdrag Hcur Hrel).
  eexists _, _. split; [reflexivity|]. split; [|reflexivity].
  cbn [virtualEye set_eye_orientation set_virtualEye eye_orientation fov set_fov].
  subst yaw. do 2 f_equal. unfold Rdiv. ring.
Qed.

(** ** The published projections *)

Lemma publishSubviews_lookup (svs : list SerializedSubview) :
  forall (frustum : PerspectiveFrustum) (i : nat) (s : SerializedSubview),
    svs !! i = Some s ->
    (publishSubviews frustum svs).2 !! i
    = Some (mkSubview (sv_viewport s)
              (frustum_projectionMatrix
                 (set_aspectRatio (aspectOf (sv_viewport s)) frustum))).
Proof.
  induction svs as [|s' rest IH]; intros frustum i s Hi; [discriminate|].
  simpl.
  destruct (publishSubviews (set_aspectRatio (aspectOf (sv_viewport s')) frustum) rest)
    as [last out] eqn:Hrest.
  destruct i as [|j]; simpl in *.
  - injection Hi as ->. reflexivity.
  - specialize (IH (set_aspectRatio (aspectOf (sv_viewport s')) frustum) j s Hi).
    rewrite Hrest in IH. simpl in IH. exact IH.
Qed.

(** C8: on a tick that is not strict and whose drag step has what it reads,
    the handler publishes, for each sub-view of the host, the projection of
    one shared frustum: the decomposition of the projection of the FIRST
    sub-view, with the fused field of view, and with the aspect ratio of the
    sub-view's own viewport (1 when that ratio is zero or not finite). *)
Theorem frameStateEvent_projections
    (host : Host) (frameState : FrameState) (st : State)
    (s0 : SerializedSubview) (viewFrustum : PerspectiveFrustum) :
  strict frameState = false ->
  fs_subviews frameState !! 0%nat = Some s0 ->
  view_subviews host !! 0%nat = Some viewFrustum ->
  dragReady host (time frameState) st ->
  exists cfs st',
    frameStateEvent host frameState st = Ok cfs st' /\
    forall (i : nat) (s : SerializedSubview),
      fs_subviews frameState !! i = Some s ->
      cfs_subviews cfs !! i
      = Some (mkSubview (sv_viewport s)
                (frustum_projectionMatrix
                   (set_aspectRatio (aspectOf (sv_viewport s))
                      (set_fov (fuseFov (fov viewFrustum) (aggregator host))
                         (decomposePerspectiveProjectionMatrix (sv_projectionMatrix s0)))))).
Proof.
  intros Hstrict Hs0 Hv0 Hready.
  rewrite (frameStateEvent_nonstrict _ _ _ _ _ Hstrict Hs0 Hv0). cbv zeta.
  assert (exists st1,
    applyDrag host (time frameState)
      (set_fov (fuseFov (fov viewFrustum) (aggregator host))
         (decomposePerspectiveProjectionMatrix (sv_projectionMatrix s0)))
      (afterDevice host st) = Ok tt st1) as [st1 Hdrag].
  { destruct Hready as [Hdev|[Hnone|(p & cur & Hcur & Hrel)]].
    - eexists. apply applyDrag_skipped. left. exact Hdev.
    - eexists. apply applyDrag_skipped. right. exact Hnone.
    - destruct (deviceUserOrientation host) as [q|] eqn:Hq.
      + eexists. apply applyDrag_skipped. left. rewrite Hq. eauto.
      + destruct (leftDrag (aggregator host)) as [[startX endX]|] eqn:Hd.
        * eexists. unfold afterDevice. rewrite Hq.
          apply (applyDrag_turns _ _ _ _ _ _ _ _ Hq Hd Hcur Hrel).
        * eexists. apply applyDrag_skipped. right. exact Hd. }
  rewrite Hdrag. eexists _, _. split; [reflexivity|].
  intros i s Hi. cbn [cfs_subviews]. apply publishSubviews_lookup. exact Hi.
Qed.

(** ** The pointer to the current panorama *)

Lemma promise_then_panoramas (p : nat) (r : Reaction) (st : State) :
  panoramas (promise_then p r st) = panoramas st
  /\ currentPano (promise_then p r st) = currentPano st.
Proof.
  unfold promise_then.
  destruct (promises st !! p) as [[|tex|reason]|]; [split; reflexivity| | |split; reflexivity];
    destruct r; split; reflexivity.
Qed.

Lemma shown_registry (now : R) (options : ShowPanoramaOptions) (panoIn : Panorama)
    (st : State) :
  panoramas (shown now options panoIn st) = panoramas st
  /\ currentPano (shown now options panoIn st) = Some panoIn.
Proof.
  unfold shown. cbv zeta.
  cbn [panoramas currentPano on_sphere set_panoSpheres set_tweens].
  match goal with
  | |- context [promise_then ?p ?r ?s] =>
      destruct (promise_then_panoramas p r s) as [Hp Hc]; rewrite Hp, Hc
  end.
  split; reflexivity.
Qed.

Lemma handle_load (pano : PanoramaInfo) (st : State) :
  stateOf (handle (LoadPanorama pano) st)
  = if decide (url pano = EmptyString) then st else loaded pano st.
Proof.
  unfold handle. rewrite bind_eq.
  destruct (decide (url pano = EmptyString)) as [He|Hne].
  - rewrite (loadPanorama_empty_url _ _ He). reflexivity.
  - rewrite (loadPanorama_ok _ _ Hne). reflexivity.
Qed.

(** What a [showPanorama] leaves of the registry and of the pointer. *)
Lemma handle_show (now : R) (options : ShowPanoramaOptions) (st : State) :
  panoramas (stateOf (handle (ShowPanorama now options) st)) = panoramas st
  /\ (currentPano (stateOf (handle (ShowPanorama now options) st)) = currentPano st
      \/ exists panoIn,
           panoramas st !! o_url options = Some panoIn /\
           currentPano (stateOf (handle (ShowPanorama now options) st)) = Some panoIn).
Proof.
  unfold handle. rewrite showPanorama_unfold. cbv zeta.
  destruct (negb (easingReadable _)); [split; [reflexivity | left; reflexivity]|].
  destruct (decide (o_url options = EmptyString)); [split; [reflexivity | left; reflexivity]|].
  destruct (negb (truthy _)); [split; [reflexivity | left; reflexivity]|].
  destruct (panoramas st !! o_url options) as [panoIn|] eqn:Hreg;
    [|split; [reflexivity | left; reflexivity]].
  destruct (panoSpheres st !! ((currentSphere st + 1) mod 2)%nat);
    [|split; [reflexivity | right; exists panoIn; split; reflexivity]].
  destruct (panoSpheres st !! currentSphere st);
    [|split; [reflexivity | right; exists panoIn; split; reflexivity]].
  cbn [stateOf]. destruct (shown_registry now options panoIn st) as [Hp Hc].
  split; [exact Hp | right; exists panoIn; split; [reflexivity | exact Hc]].
Qed.

Lemma handle_keeps_pointer (c : Command) (st : State) :
  keyedByUrl st -> pointerInRegistry st ->
  ~ deletesCurrent c st -> ~ reloadsCurrent c st ->
  keyedByUrl (stateOf (handle c st)) /\ pointerInRegistry (stateOf (handle c st)).
Proof.
  intros Hkey Hptr Hdel Hre. destruct c as [pano|u|now options].
  - rewrite handle_load.
    destruct (decide (url pano = EmptyString)); [split; assumption|].
    split.
    + intros u p. cbn [panoramas loaded].
      destruct (decide (url pano = u)) as [<-|Hne].
      * rewrite lookup_insert_eq. intros [= <-]. reflexivity.
      * rewrite lookup_insert_ne by exact Hne. apply Hkey.
    + intros p Hp. cbn [panoramas currentPano loaded] in *.
      rewrite lookup_insert_ne; [apply Hptr; exact Hp|].
      intros Heq. apply Hre. exists p. split; [exact Hp | symmetry; exact Heq].
  - cbn [handle deletePanorama modify stateOf set_panoramas]. split.
    + intros u' p Hl. cbn [panoramas set_panoramas] in Hl.
      apply lookup_delete_Some in Hl as [_ Hl]. apply Hkey. exact Hl.
    + intros p Hp. cbn [panoramas currentPano set_panoramas] in *.
      rewrite lookup_delete_ne; [apply Hptr; exact Hp|].
      intros Heq. apply Hdel. exists p. split; [exact Hp | symmetry; exact Heq].
  - destruct (handle_show now options st) as [Hp [Hc|(panoIn & Hreg & Hc)]].
    + split.
      * intros u p. rewrite Hp. apply Hkey.
      * intros p. rewrite Hp, Hc. apply Hptr.
    + split.
      * intros u p. rewrite Hp. apply Hkey.
      * intros p. rewrite Hp, Hc. intros [= <-].
        rewrite (Hkey _ _ Hreg). exact Hreg.
Qed.

Lemma run_keeps_pointer (cs : list Command) :
  forall st : State,
    keyedByUrl st -> pointerInRegistry st ->
    never deletesCurrent cs st -> never reloadsCurrent cs st ->
    keyedByUrl (run cs st) /\ pointerInRegistry (run cs st).
Proof.
  induction cs as [|c rest IH]; intros st Hkey Hptr Hdel Hre; [split; assumption|].
  destruct Hdel as [Hdel Hdels]. destruct Hre as [Hre Hres].
  destruct (handle_keeps_pointer c st Hkey Hptr Hdel Hre) as [Hkey' Hptr'].
  apply (IH _ Hkey' Hptr' Hdels Hres).
Qed.

(** C6: after every sequence of loadPanorama, deletePanorama and
    showPanorama commands that never deletes and never registers again the
    url of the panorama current at that time, the pointer to the current
    panorama, when set, is the very entry the registry holds under its url. *)
Theorem pointer_in_registry (cs : list Command) :
  never deletesCurrent cs init ->
  never reloadsCurrent cs init ->
  pointerInRegistry (run cs init).
Proof.
  intros Hdel Hre.
  apply (run_keeps_pointer cs init); [| |exact Hdel|exact Hre].
  - intros u p Hl. cbn in Hl. rewrite lookup_empty in Hl. discriminate.
  - intros p Hp. discriminate.
Qed.

(** ** The fade *)

(** The update event on a state whose one tween has started, has a positive
    or negative duration and an easing that is a function: the opacity of its
    material is set from the eased share of the duration that elapsed. *)
Lemma updateEvent_single (t : R) (st : State) (tw : Tween)
    (f : R -> R) (props : list (string * jsval)) :
  tweens st = [tw] ->
  tw_easing tw = JFunction f props ->
  tw_startTime tw <= t ->
  tw_duration tw <> 0 ->
  exists st',
    updateEvent t st = Ok tt st' /\
    panoSpheres st'
    = alter (set_material (fun m =>
               set_needsUpdate true
                 (set_opacity (tw_valuesStart tw
                               + (tw_valuesEnd tw - tw_valuesStart tw) * f (elapsedAt tw t)) m)))
            (tw_object tw) (panoSpheres st).
Proof.
  intros Htws Hease Hstart Hdur.
  unfold updateEvent. rewrite bind_eq. unfold gets. rewrite Htws.
  cbn [TWEEN_update_loop]. rewrite bind_eq. unfold Tween_update.
  destruct (Rlt_dec t (tw_startTime tw)) as [Hlt|_]; [lra|].
  destruct (Req_dec_T (tw_duration tw) 0) as [Hz|_]; [contradiction|].
  rewrite Hease.
  assert ((if Rgt_dec ((t - tw_startTime tw) / tw_duration tw) 1 then 1
           else (t - tw_startTime tw) / tw_duration tw) = elapsedAt tw t) as ->.
  { unfold elapsedAt.
    destruct (Rgt_dec ((t - tw_startTime tw) / tw_duration tw) 1) as [Hgt|Hle].
    - rewrite Rmin_left by lra. reflexivity.
    - rewrite Rmin_right by lra. reflexivity. }
  rewrite bind_eq. unfold modify. cbv beta iota.
  destruct (Req_dec_T (elapsedAt tw t) 1); cbn; eexists; split; reflexivity.
Qed.

Lemma crossfade_run (info1 info2 : PanoramaInfo) (first : option Transition)
    (now1 now2 : R) (f : R -> R) (props : list (string * jsval)) :
  prop (prop TWEEN_Easing "Linear") "None" = JFunction f props ->
  url info1 <> EmptyString ->
  url info2 <> EmptyString ->
  url info1 <> url info2 ->
  run (crossfade info1 info2 first now1 now2) init
  = shown now2 (mkShowPanoramaOptions (url info2) (Some (mkTransition None (Some 1000))))
      (entryOf info2 (loaded info1 init))
      (shown now1 (mkShowPanoramaOptions (url info1) first)
         (entryOf info1 init)
         (loaded info2 (loaded info1 init))).
Proof.
  intros Hlin Hu1 Hu2 Hne.
  unfold run, crossfade. cbn [foldl].
  rewrite !handle_load.
  destruct (decide (url info1 = EmptyString)) as [?|_]; [contradiction|].
  destruct (decide (url info2 = EmptyString)) as [?|_]; [contradiction|].
  set (st2 := loaded info2 (loaded info1 init)).
  assert (panoramas st2 !! url info1 = Some (entryOf info1 init)) as Hreg1.
  { subst st2. cbn [panoramas loaded].
    rewrite lookup_insert_ne by (intros Heq; apply Hne; symmetry; exact Heq).
    apply lookup_insert_eq. }
  assert (panoramas st2 !! url info2 = Some (entryOf info2 (loaded info1 init))) as Hreg2.
  { subst st2. cbn [panoramas loaded]. apply lookup_insert_eq. }
  (* the first show *)
  cbn [handle].
  rewrite (showPanorama_unfold now1 _ st2). cbv zeta. cbn [o_url].
  destruct (linear_is_function f props
              (default (mkTransition None None) first) Hlin) as [Hr1 Ht1].
  cbn [o_transition]. rewrite Hr1, Ht1. cbn [negb].
  destruct (decide (url info1 = EmptyString)) as [?|_]; [contradiction|].
  rewrite Hreg1.
  change (panoSpheres st2 !! ((currentSphere st2 + 1) mod 2)%nat) with (Some newMesh).
  change (panoSpheres st2 !! currentSphere st2) with (Some newMesh).
  cbn [stateOf].
  set (st3 := shown now1 _ _ st2).
  (* the second show *)
  rewrite (showPanorama_unfold now2 _ st3). cbv zeta. cbn [o_url o_transition].
  destruct (linear_is_function f props
              (default (mkTransition None None) (Some (mkTransition None (Some 1000)))) Hlin)
    as [Hr2 Ht2].
  rewrite Hr2, Ht2. cbn [negb].
  destruct (decide (url info2 = EmptyString)) as [?|_]; [contradiction|].
  destruct (shown_registry now1 (mkShowPanoramaOptions (url info1) first)
              (entryOf info1 init) st2) as [Hp3 _].
  fold st3 in Hp3. rewrite Hp3, Hreg2.
  assert (exists m, panoSpheres st3 !! ((currentSphere st3 + 1) mod 2)%nat = Some m)
    as [mIn ->] by (vm_compute; eauto).
  assert (exists m, panoSpheres st3 !! currentSphere st3 = Some m)
    as [mOut ->] by (vm_compute; eauto).
  reflexivity.
Qed.

(** C10: after registering two panoramas and showing the first, then the
    second with a duration of 1000, the active slot has toggled back to 0:
    the sphere of the first panorama (slot 1) is the outgoing one, with scale
    (-0.9, 0.9, 0.9), and the one fade in flight takes the opacity of its
    material from 1 to 0 over 1000 with the linear easing; the sphere of the
    second panorama (slot 0) is the incoming one, with opacity 1 that no
    tween touches and scale (-1, 1, 1); the incoming sphere has the lower
    render order, so it is drawn first. *)
Theorem crossfade_slots (info1 info2 : PanoramaInfo) (first : option Transition)
    (now1 now2 : R) (props : list (string * jsval)) :
  prop (prop TWEEN_Easing "Linear") "None" = JFunction (fun k => k) props ->
  url info1 <> EmptyString ->
  url info2 <> EmptyString ->
  url info1 <> url info2 ->
  let st := run (crossfade info1 info2 first now1 now2) init in
  currentSphere st = 0%nat /\
  (exists e1 e2,
     panoramas st !! url info1 = Some e1 /\
     panoramas st !! url info2 = Some e2 /\
     currentPano st = Some e2 /\
     (texture e1, BindMap 1) ∈ reactions st /\
     (texture e2, BindMap 0) ∈ reactions st) /\
  panoSpheres st
  = [ mkMesh (mkMaterial None 1 true true)
             (orZero (offsetDegrees info2) * CesiumMath.RADIANS_PER_DEGREE)
             (-1, 1, 1) 0%Z;
      mkMesh (mkMaterial None 1 true true)
             (orZero (offsetDegrees info1) * CesiumMath.RADIANS_PER_DEGREE)
             (-0.9, 0.9, 0.9) 1%Z ] /\
  tweens st = [mkTween 1 1 0 1000 (JFunction (fun k => k) props) now2] /\
  forall t : R,
    now2 <= t ->
    exists st',
      updateEvent t st = Ok tt st' /\
      slotOpacity 1 st' = Some (1 - Rmin 1 ((t - now2) / 1000)) /\
      slotOpacity 0 st' = Some 1.
Proof.
  intros Hlin Hu1 Hu2 Hne st.
  assert (st = shown now2
                 (mkShowPanoramaOptions (url info2) (Some (mkTransition None (Some 1000))))
                 (entryOf info2 (loaded info1 init))
                 (shown now1 (mkShowPanoramaOptions (url info1) first)
                    (entryOf info1 init)
                    (loaded info2 (loaded info1 init)))) as Hst
    by (apply (crossfade_run _ _ _ _ _ _ props Hlin Hu1 Hu2 Hne)).
  assert (currentSphere st = 0%nat) as Hcur by (rewrite Hst; vm_compute; reflexivity).
  assert (panoSpheres st
          = [ mkMesh (mkMaterial None 1 true true)
                (orZero (offsetDegrees info2) * CesiumMath.RADIANS_PER_DEGREE)
                (-1, 1, 1) 0%Z;
              mkMesh (mkMaterial None 1 true true)
                (orZero (offsetDegrees info1) * CesiumMath.RADIANS_PER_DEGREE)
                (-0.9, 0.9, 0.9) 1%Z ]) as Hspheres
    by (rewrite Hst; vm_compute; reflexivity).
  assert (tweens st = [mkTween 1 1 0 1000 (JFunction (fun k => k) props) now2]) as Htws.
  { rewrite Hst. unfold shown at 1. cbv zeta.
    cbn [tweens on_sphere set_panoSpheres set_tweens].
    unfold easingFor, js_or. cbn [default duration easing resolve truthy].
    rewrite Hlin. vm_compute. reflexivity. }
  split; [exact Hcur|]. split; [|split; [exact Hspheres|split; [exact Htws|]]].
  - exists (entryOf info1 init), (entryOf info2 (loaded info1 init)).
    destruct (shown_registry now2
      (mkShowPanoramaOptions (url info2) (Some (mkTransition None (Some 1000))))
      (entryOf info2 (loaded info1 init))
      (shown now1 (mkShowPanoramaOptions (url info1) first) (entryOf info1 init)
         (loaded info2 (loaded info1 init)))) as [Hp4 Hc4].
    destruct (shown_registry now1 (mkShowPanoramaOptions (url info1) first)
      (entryOf info1 init) (loaded info2 (loaded info1 init))) as [Hp3 _].
    rewrite Hst, Hp4, Hc4, Hp3. cbn [panoramas loaded].
    split; [|split; [|split; [reflexivity|]]].
    + rewrite lookup_insert_ne by (intros Heq; apply Hne; symmetry; exact Heq).
      apply lookup_insert_eq.
    + apply lookup_insert_eq.
    + assert (reactions
                (shown now2
                   (mkShowPanoramaOptions (url info2) (Some (mkTransition None (Some 1000))))
                   (entryOf info2 (loaded info1 init))
                   (shown now1 (mkShowPanoramaOptions (url info1) first) (entryOf info1 init)
                      (loaded info2 (loaded info1 init))))
              = [(0%nat, SettleReply 0); (1%nat, SettleReply 1);
                 (0%nat, BindMap 1); (1%nat, BindMap 0)]) as ->
        by (vm_compute; reflexivity).
      cbn [texture entryOf promises loaded init length app].
      split; [do 2 right; left | do 3 right; left].
  - intros t Ht.
    destruct (updateEvent_single t st _ (fun k => k) props Htws eq_refl) as (st' & Hrun & Hs').
    + exact Ht.
    + cbn [tw_duration]. lra.
    + exists st'. split; [exact Hrun|].
      unfold slotOpacity. rewrite Hs', Hspheres.
      cbn [tw_object tw_valuesStart tw_valuesEnd]. unfold elapsedAt.
      cbn [tw_startTime tw_duration].
      split; cbn; f_equal; ring.
Qed.

(** ** The registry: loadPanorama and deletePanorama *)

(** X1: [loadPanorama] throws exactly when the url is empty, and then it
    leaves the state as it was (nothing registered, no request started);
    otherwise it returns a promise that is pending and has started one more
    request of the loader. *)
Theorem loadPanorama_throws_iff_empty_url (pano : PanoramaInfo) (st : State) :
  (url pano = EmptyString /\ loadPanorama pano st = Throw ExpectedImageUrl st)
  \/
  (url pano <> EmptyString /\
   exists reply st',
     loadPanorama pano st = Ok reply st' /\
     replies st' !! reply = Some Pending /\
     length (requests st') = S (length (requests st))).
Proof.
  destruct (decide (url pano = EmptyString)) as [He|Hne].
  - left. split; [exact He | apply loadPanorama_empty_url; exact He].
  - right. split; [exact Hne|]. rewrite (loadPanorama_ok _ _ Hne).
    eexists _, _. split; [reflexivity|]. cbn [replies requests loaded]. split.
    + rewrite lookup_app_r by lia.
      replace (length (replies st) - length (replies st))%nat with 0%nat by lia.
      reflexivity.
    + rewrite length_app. simpl. lia.
Qed.

(** X2: after a [loadPanorama] with a url, the lookup of that url gives an
    entry that carries the url, longitude, latitude, height and offset of the
    input as given; the entries under other urls, the pointer to the current
    panorama, the spheres, the tweens and the eye are as before. *)
Theorem loadPanorama_lookup_round_trip (pano : PanoramaInfo) (st : State) :
  url pano <> EmptyString ->
  exists reply st' p,
    loadPanorama pano st = Ok reply st' /\
    panoramas st' !! url pano = Some p /\
    (p_url p, p_longitude p, p_latitude p, p_height p, p_offsetDegrees p)
    = (url pano, longitude pano, latitude pano, height pano, offsetDegrees pano) /\
    (forall u, u <> url pano -> panoramas st' !! u = panoramas st !! u) /\
    (currentPano st', panoSpheres st', currentSphere st', tweens st', virtualEye st')
    = (currentPano st, panoSpheres st, currentSphere st, tweens st, virtualEye st).
Proof.
  intros Hne. rewrite (loadPanorama_ok _ _ Hne).
  exists (length (replies st)), (loaded pano st), (entryOf pano st).
  split; [reflexivity|]. cbn [panoramas loaded].
  split; [apply lookup_insert_eq|]. split; [reflexivity|]. split; [|reflexivity].
  intros u Hu. apply lookup_insert_ne. intros Heq. apply Hu. symmetry. exact Heq.
Qed.

(** X3: registering a url again overwrites: the registry holds the same urls
    as after the first registration, the lookup gives the data of the second
    input, and the second entry has an entity and a texture promise of its
    own. *)
Theorem loadPanorama_overwrites (pano pano' : PanoramaInfo) (st : State) :
  url pano <> EmptyString ->
  url pano' = url pano ->
  let st1 := stateOf (loadPanorama pano st) in
  let st2 := stateOf (loadPanorama pano' st1) in
  dom (panoramas st2) = dom (panoramas st1) /\
  exists p1 p2,
    panoramas st1 !! url pano = Some p1 /\
    panoramas st2 !! url pano = Some p2 /\
    (p_longitude p2, p_latitude p2, p_height p2, p_offsetDegrees p2)
    = (longitude pano', latitude pano', height pano', offsetDegrees pano') /\
    entity_id (entity p2) <> entity_id (entity p1) /\
    texture p2 <> texture p1.
Proof.
  intros Hne Hsame st1 st2. subst st1 st2.
  assert (url pano' <> EmptyString) as Hne' by (rewrite Hsame; exact Hne).
  rewrite (loadPanorama_ok _ _ Hne). cbn [stateOf].
  rewrite (loadPanorama_ok _ _ Hne'). cbn [stateOf panoramas loaded].
  rewrite Hsame. split.
  - rewrite insert_insert_eq. rewrite !dom_insert_L. reflexivity.
  - exists (entryOf pano st), (entryOf pano' (loaded pano st)).
    split; [apply lookup_insert_eq|]. split; [apply lookup_insert_eq|].
    split; [reflexivity|].
    unfold entryOf, anchorOf. cbn [texture entity nextEntity promises loaded].
    split.
    + destruct (defined (longitude pano') && defined (longitude pano'));
        destruct (defined (longitude pano) && defined (longitude pano));
        cbn [entity_id]; lia.
    + rewrite length_app. simpl. lia.
Qed.

(** X4: [deletePanorama] never throws; after it the url is not registered,
    the entries under other urls are as before, and deleting the same url
    once more changes nothing. *)
Theorem deletePanorama_idempotent (u : string) (st : State) :
  exists st',
    deletePanorama u st = Ok tt st' /\
    panoramas st' !! u = None /\
    (forall u', u' <> u -> panoramas st' !! u' = panoramas st !! u') /\
    deletePanorama u st' = Ok tt st'.
Proof.
  exists (set_panoramas (delete u) st). split; [reflexivity|].
  cbn [panoramas set_panoramas]. split; [apply lookup_delete_eq|]. split.
  - intros u' Hu'. apply lookup_delete_ne. intros Heq. apply Hu'. symmetry. exact Heq.
  - unfold deletePanorama, modify, set_panoramas. cbn.
    rewrite delete_delete_eq. reflexivity.
Qed.

(** X5: deleting the url of the panorama that is shown leaves the pointer on
    the deleted entry, which the registry then no longer holds; the eye, the
    spheres and the fade are as they were. *)
Theorem deletePanorama_keeps_current (u : string) (p : Panorama) (st : State) :
  currentPano st = Some p ->
  p_url p = u ->
  exists st',
    deletePanorama u st = Ok tt st' /\
    currentPano st' = Some p /\
    panoramas st' !! p_url p = None /\
    (virtualEye st', panoSpheres st', currentSphere st', tweens st')
    = (virtualEye st, panoSpheres st, currentSphere st, tweens st).
Proof.
  intros Hcur Hu. exists (set_panoramas (delete u) st).
  split; [reflexivity|]. cbn [currentPano panoramas set_panoramas].
  split; [exact Hcur|]. split; [rewrite Hu; apply lookup_delete_eq | reflexivity].
Qed.

(** ** The loader and the textures *)

Lemma runReaction_besides (settled : PromiseState Texture) (r : Reaction) (st : State) :
  besidesTextures (runReaction settled r st) = besidesTextures st.
Proof.
  unfold besidesTextures.
  destruct r as [slot|k], settled as [|tex|reason]; simpl; try reflexivity;
    rewrite ?length_alter, ?length_insert; reflexivity.
Qed.

Lemma run_reactions_besides (settled : PromiseState Texture) (rs : list (nat * Reaction)) :
  forall st : State,
    besidesTextures (foldl (fun s pr => runReaction settled pr.2 s) st rs)
    = besidesTextures st.
Proof.
  induction rs as [|pr rs IH]; intros st; [reflexivity|].
  simpl. rewrite IH. apply runReaction_besides.
Qed.

Lemma settle_besides (p : nat) (settled : PromiseState Texture) (st : State) :
  besidesTextures (settle p settled st) = besidesTextures st.
Proof.
  unfold settle. destruct (promises st !! p) as [[|tex|reason]|]; try reflexivity.
  cbv zeta. rewrite run_reactions_besides.
  unfold besidesTextures. simpl. rewrite length_insert. reflexivity.
Qed.

Lemma loaderEvent_besides (i : nat) (o : LoaderOutcome) (st : State) :
  besidesTextures (loaderEvent i o st) = besidesTextures st.
Proof.
  unfold loaderEvent. destruct (requests st !! i) as [req|]; [|reflexivity].
  destruct o as [tex|reason].
  - destruct (req_onLoad req) as [[p]|]; [apply settle_besides | reflexivity].
  - destruct (req_onError req) as [[p]|]; [apply settle_besides | reflexivity].
Qed.

Lemma withTexture_twice (tex : Texture) (m : Mesh) :
  withTexture tex (withTexture tex m) = withTexture tex m.
Proof. reflexivity. Qed.

Lemma runReaction_sphere (settled : PromiseState Texture) (r : Reaction) (st : State)
    (s : nat) (m : Mesh) :
  panoSpheres st !! s = Some m ->
  panoSpheres (runReaction settled r st) !! s = Some m
  \/ exists tex, settled = Fulfilled tex /\
       panoSpheres (runReaction settled r st) !! s = Some (withTexture tex m).
Proof.
  intros Hs. destruct r as [slot|k], settled as [|tex|reason];
    try (left; exact Hs).
  cbn [runReaction on_sphere set_panoSpheres panoSpheres].
  destruct (decide (slot = s)) as [->|Hne].
  - right. exists tex. split; [reflexivity|].
    rewrite list_lookup_alter_eq, Hs. reflexivity.
  - left. rewrite list_lookup_alter_ne by exact Hne. exact Hs.
Qed.

Lemma run_reactions_sphere (settled : PromiseState Texture) (rs : list (nat * Reaction)) :
  forall (st : State) (s : nat) (m : Mesh),
    panoSpheres st !! s = Some m ->
    let st' := foldl (fun st0 pr => runReaction settled pr.2 st0) st rs in
    panoSpheres st' !! s = Some m
    \/ exists tex, settled = Fulfilled tex /\ panoSpheres st' !! s = Some (withTexture tex m).
Proof.
  induction rs as [|pr rs IH]; intros st s m Hs; [left; exact Hs|].
  cbn [foldl]. cbv zeta.
  destruct (runReaction_sphere settled pr.2 st s m Hs) as [H1|(tex & Hset & H1)].
  - exact (IH _ s m H1).
  - destruct (IH _ s _ H1) as [H2|(tex' & Hset' & H2)].
    + right. exists tex. split; [exact Hset | exact H2].
    + right. exists tex. split; [exact Hset|].
      rewrite Hset in Hset'. injection Hset' as <-.
      rewrite H2, withTexture_twice. reflexivity.
Qed.

Lemma run_reactions_promises (settled : PromiseState Texture) (rs : list (nat * Reaction)) :
  forall st : State,
    promises (foldl (fun s pr => runReaction settled pr.2 s) st rs) = promises st.
Proof.
  induction rs as [|pr rs IH]; intros st; [reflexivity|].
  simpl. rewrite IH. destruct pr as [p [slot|k]], settled as [|tex|reason]; reflexivity.
Qed.

Lemma settle_sphere (p : nat) (settled : PromiseState Texture) (st : State)
    (s : nat) (m : Mesh) :
  panoSpheres st !! s = Some m ->
  panoSpheres (settle p settled st) !! s = Some m
  \/ exists tex, settled = Fulfilled tex /\
       panoSpheres (settle p settled st) !! s = Some (withTexture tex m).
Proof.
  intros Hs. unfold settle.
  destruct (promises st !! p) as [[|tex|reason]|]; try (left; exact Hs).
  cbv zeta. apply run_reactions_sphere. exact Hs.
Qed.

Lemma settle_keeps_settled (p : nat) (settled : PromiseState Texture) (st : State)
    (q : nat) (was : PromiseState Texture) :
  promises st !! q = Some was ->
  was <> Pending ->
  promises (settle p settled st) !! q = Some was.
Proof.
  intros Hq Hwas. unfold settle.
  destruct (promises st !! p) as [[|tex|reason]|] eqn:Hp; try exact Hq.
  cbv zeta. rewrite run_reactions_promises.
  cbn [promises set_reactions set_promises].
  destruct (decide (p = q)) as [->|Hne].
  - rewrite Hq in Hp. injection Hp as ->. contradiction.
  - rewrite list_lookup_insert_ne by exact Hne. exact Hq.
Qed.

(** X6: the loader finishing a request, with an image or with an error,
    only settles promises and binds textures. It never changes the registry,
    the pointer to the current panorama, the active slot, the eye, the tweens
    or the requests, and it makes or drops no sphere, promise or reply. Every
    sphere is afterwards as it was, or as it was with the image that was
    loaded (its filter set to linear) as the map of its material and the
    material marked for update; its opacity, yaw, scale and render order
    never change, and after an error no sphere changes at all. A texture
    promise that was settled before keeps its value. *)
Theorem loaderEvent_touches_only_textures (i : nat) (o : LoaderOutcome) (st : State) :
  let st' := loaderEvent i o st in
  besidesTextures st' = besidesTextures st /\
  (forall (s : nat) (m : Mesh),
     panoSpheres st !! s = Some m ->
     panoSpheres st' !! s = Some m
     \/ exists tex, o = ImageLoaded tex /\
          panoSpheres st' !! s
          = Some (withTexture (mkTexture (image tex) LinearFilter) m)) /\
  (forall (q : nat) (was : PromiseState Texture),
     promises st !! q = Some was ->
     was <> Pending ->
     promises st' !! q = Some was).
Proof.
  cbv zeta. split; [apply loaderEvent_besides|]. split.
  - intros s m Hs. unfold loaderEvent.
    destruct (requests st !! i) as [req|]; [|left; exact Hs].
    destruct o as [tex|reason].
    + destruct (req_onLoad req) as [[p]|]; [|left; exact Hs].
      cbn [runOnLoad].
      destruct (settle_sphere p (Fulfilled (mkTexture (image tex) LinearFilter)) st s m Hs)
        as [H|(tex' & Hset & H)].
      * left. exact H.
      * right. exists tex. split; [reflexivity|].
        injection Hset as <-. exact H.
    + destruct (req_onError req) as [[p]|]; [|left; exact Hs].
      cbn [runOnError].
      destruct (settle_sphere p (Rejected reason) st s m Hs) as [H|(tex' & Hset & _)].
      * left. exact H.
      * discriminate Hset.
  - intros q was Hq Hwas. unfold loaderEvent.
    destruct (requests st !! i) as [req|]; [|exact Hq].
    destruct o as [tex|reason].
    + destruct (req_onLoad req) as [[p]|]; [|exact Hq].
      apply settle_keeps_settled; assumption.
    + destruct (req_onError req) as [[p]|]; [|exact Hq].
      apply settle_keeps_settled; assumption.
Qed.

Lemma runReaction_spheres_length (settled : PromiseState Texture) (r : Reaction) (st : State) :
  length (panoSpheres (runReaction settled r st)) = length (panoSpheres st).
Proof.
  pose proof (runReaction_besides settled r st) as H.
  unfold besidesTextures in H. congruence.
Qed.

Lemma runReaction_keeps_map (tex : Texture) (r : Reaction) (st : State) (s : nat) :
  slotMap s st = Some (Some tex) ->
  slotMap s (runReaction (Fulfilled tex) r st) = Some (Some tex).
Proof.
  unfold slotMap. intros Hs. destruct r as [slot|k]; simpl; [|exact Hs].
  destruct (decide (slot = s)) as [->|Hne].
  - rewrite list_lookup_alter_eq.
    destruct (panoSpheres st !! s); [reflexivity | discriminate].
  - rewrite list_lookup_alter_ne by exact Hne. exact Hs.
Qed.

Lemma run_reactions_keep_map (tex : Texture) (rs : list (nat * Reaction)) :
  forall (st : State) (s : nat),
    slotMap s st = Some (Some tex) ->
    slotMap s (foldl (fun st' pr => runReaction (Fulfilled tex) pr.2 st') st rs)
    = Some (Some tex).
Proof.
  induction rs as [|pr rs IH]; intros st s Hs; [exact Hs|].
  simpl. apply IH. apply runReaction_keeps_map. exact Hs.
Qed.

Lemma run_reactions_bind (tex : Texture) (rs : list (nat * Reaction)) :
  forall (st : State) (p s : nat),
    (p, BindMap s) ∈ rs ->
    (s < length (panoSpheres st))%nat ->
    slotMap s (foldl (fun st' pr => runReaction (Fulfilled tex) pr.2 st') st rs)
    = Some (Some tex).
Proof.
  induction rs as [|pr rs IH]; intros st p s Hin Hlen; [inversion Hin|].
  simpl. apply elem_of_cons in Hin as [<-|Hin].
  - apply run_reactions_keep_map. unfold slotMap. simpl.
    rewrite list_lookup_alter_eq.
    destruct (lookup_lt_is_Some_2 (panoSpheres st) s Hlen) as [m ->]. reflexivity.
  - apply (IH _ p); [exact Hin|]. rewrite runReaction_spheres_length. exact Hlen.
Qed.

(** The loader delivering the image of a request whose promise is pending:
    every slot a [then] of that promise names gets the texture, with the
    linear filter. *)
Lemma loaderEvent_binds (i p s : nat) (tex : Texture) (st : State) (req : LoadRequest) :
  requests st !! i = Some req ->
  req_onLoad req = Some (ResolveTexture p) ->
  promises st !! p = Some Pending ->
  (p, BindMap s) ∈ reactions st ->
  (s < length (panoSpheres st))%nat ->
  slotMap s (loaderEvent i (ImageLoaded tex) st)
  = Some (Some (mkTexture (image tex) LinearFilter)).
Proof.
  intros Hreq Hon Hpend Hin Hlen.
  unfold loaderEvent. rewrite Hreq, Hon. cbn [runOnLoad].
  unfold settle. rewrite Hpend. cbv zeta.
  apply (run_reactions_bind _ _ _ p).
  - apply list_elem_of_filter. split; [reflexivity | exact Hin].
  - exact Hlen.
Qed.

Lemma loaderEvent_fulfils (i p k : nat) (tex : Texture) (st : State) (req : LoadRequest) :
  requests st !! i = Some req ->
  req_onLoad req = Some (ResolveTexture p) ->
  promises st !! p = Some Pending ->
  (p, SettleReply k) ∈ reactions st ->
  (k < length (replies st))%nat ->
  replies (loaderEvent i (ImageLoaded tex) st) !! k = Some (Fulfilled tt).
Proof.
  intros Hreq Hon Hpend Hin Hlen.
  unfold loaderEvent. rewrite Hreq, Hon. cbn [runOnLoad].
  unfold settle. rewrite Hpend. cbv zeta.
  apply (run_reactions_settles _ _ _ p).
  - apply list_elem_of_filter. split; [reflexivity | exact Hin].
  - exact Hlen.
Qed.

(** X7: a panorama deleted while its texture is loading stays deleted: when
    the image arrives afterwards the registry is as it was before the
    registration, and the promise the registration returned is fulfilled all
    the same. *)
Theorem delete_while_loading (pano : PanoramaInfo) (tex : Texture) (st : State) :
  url pano <> EmptyString ->
  panoramas st !! url pano = None ->
  exists reply st1,
    loadPanorama pano st = Ok reply st1 /\
    let st2 := stateOf (deletePanorama (url pano) st1) in
    let st3 := loaderEvent (length (requests st)) (ImageLoaded tex) st2 in
    panoramas st3 = panoramas st /\
    replies st3 !! reply = Some (Fulfilled tt).
Proof.
  intros Hne Hfree. rewrite (loadPanorama_ok _ _ Hne).
  eexists _, _. split; [reflexivity|]. cbv zeta.
  set (st2 := stateOf (deletePanorama (url pano) (loaded pano st))).
  assert (requests st2 !! length (requests st)
          = Some (mkLoadRequest (url pano) (Some (ResolveTexture (length (promises st)))) None))
    as Hreq.
  { subst st2. cbn. rewrite lookup_app_r by lia.
    replace (length (requests st) - length (requests st))%nat with 0%nat by lia.
    reflexivity. }
  split.
  - pose proof (loaderEvent_besides (length (requests st)) (ImageLoaded tex) st2) as Hb.
    unfold besidesTextures in Hb.
    assert (panoramas (loaderEvent (length (requests st)) (ImageLoaded tex) st2)
            = panoramas st2) as -> by congruence.
    subst st2. cbn. rewrite delete_insert_eq. apply delete_id. exact Hfree.
  - apply (loaderEvent_fulfils _ (length (promises st)) _ _ _ _ Hreq eq_refl).
    + subst st2. cbn. rewrite lookup_app_r by lia.
      replace (length (promises st) - length (promises st))%nat with 0%nat by lia.
      reflexivity.
    + subst st2. cbn. apply elem_of_app. right. apply list_elem_of_singleton. reflexivity.
    + subst st2. cbn. rewrite length_app. simpl. lia.
Qed.

(** ** What a successful showPanorama leaves behind *)

Lemma showPanorama_succeeds (f : R -> R) (props : list (string * jsval))
    (now : R) (options : ShowPanoramaOptions) (st : State) (panoIn : Panorama)
    (mIn mOut : Mesh) :
  prop (prop TWEEN_Easing "Linear") "None" = JFunction f props ->
  o_url options <> EmptyString ->
  panoramas st !! o_url options = Some panoIn ->
  panoSpheres st !! ((currentSphere st + 1) mod 2)%nat = Some mIn ->
  panoSpheres st !! currentSphere st = Some mOut ->
  showPanorama now options st = Ok tt (shown now options panoIn st).
Proof.
  intros Hlin Hurl Hreg HIn HOut.
  rewrite showPanorama_unfold. cbv zeta.
  destruct (linear_is_function f props
              (default (mkTransition None None) (o_transition options)) Hlin) as [Hr Ht].
  rewrite Hr, Ht. cbn [negb].
  destruct (decide (o_url options = EmptyString)); [contradiction|].
  rewrite Hreg, HIn, HOut. reflexivity.
Qed.

Ltac promise_then_cases p st :=
  unfold promise_then; destruct (promises st !! p) as [[|?|?]|]; reflexivity.

Lemma pt_panoramas (p i : nat) (st : State) :
  panoramas (promise_then p (BindMap i) st) = panoramas st.
Proof. promise_then_cases p st. Qed.
Lemma pt_currentPano (p i : nat) (st : State) :
  currentPano (promise_then p (BindMap i) st) = currentPano st.
Proof. promise_then_cases p st. Qed.
Lemma pt_currentSphere (p i : nat) (st : State) :
  currentSphere (promise_then p (BindMap i) st) = currentSphere st.
Proof. promise_then_cases p st. Qed.
Lemma pt_virtualEye (p i : nat) (st : State) :
  virtualEye (promise_then p (BindMap i) st) = virtualEye st.
Proof. promise_then_cases p st. Qed.
Lemma pt_tweens (p i : nat) (st : State) :
  tweens (promise_then p (BindMap i) st) = tweens st.
Proof. promise_then_cases p st. Qed.
Lemma pt_promises (p i : nat) (st : State) :
  promises (promise_then p (BindMap i) st) = promises st.
Proof. promise_then_cases p st. Qed.
Lemma pt_replies (p i : nat) (st : State) :
  replies (promise_then p (BindMap i) st) = replies st.
Proof. promise_then_cases p st. Qed.
Lemma pt_requests (p i : nat) (st : State) :
  requests (promise_then p (BindMap i) st) = requests st.
Proof. promise_then_cases p st. Qed.
Lemma pt_nextEntity (p i : nat) (st : State) :
  nextEntity (promise_then p (BindMap i) st) = nextEntity st.
Proof. promise_then_cases p st. Qed.

Lemma promise_then_bind_spheres (p i : nat) (st : State) :
  panoSpheres (promise_then p (BindMap i) st)
  = match loadedTexture st p with
    | Some tex =>
        alter (set_material (fun m => set_needsUpdate true (set_map (Some tex) m))) i
              (panoSpheres st)
    | None => panoSpheres st
    end.
Proof.
  unfold promise_then, loadedTexture.
  destruct (promises st !! p) as [[|tex|reason]|]; reflexivity.
Qed.

Lemma promise_then_bind_reactions (p i : nat) (st : State) :
  promises st !! p = Some Pending ->
  reactions (promise_then p (BindMap i) st) = reactions st ++ [(p, BindMap i)].
Proof. intros Hp. unfold promise_then. rewrite Hp. reflexivity. Qed.

(** The fields of [shown] that do not depend on the texture promise. *)
Lemma shown_fields (now : R) (options : ShowPanoramaOptions) (panoIn : Panorama)
    (st : State) :
  let st' := shown now options panoIn st in
  panoramas st' = panoramas st /\
  currentPano st' = Some panoIn /\
  currentSphere st' = ((currentSphere st + 1) mod 2)%nat /\
  virtualEye st' = mkVirtualEye (eye_orientation (virtualEye st))
                                (Some (Cartesian3.ZERO, entity panoIn)) /\
  promises st' = promises st /\
  replies st' = replies st /\
  requests st' = requests st /\
  nextEntity st' = nextEntity st /\
  tweens st'
  = [mkTween (currentSphere st)
       (from_option (fun m => opacity (material m)) 0 (panoSpheres st !! currentSphere st))
       0 (default 1000 (duration (default (mkTransition None None) (o_transition options))))
       (easingFor (default (mkTransition None None) (o_transition options))) now].
Proof.
  unfold shown. cbv zeta.
  cbn [panoramas currentPano currentSphere virtualEye promises replies requests nextEntity
       tweens on_sphere set_panoSpheres set_tweens].
  rewrite ?pt_panoramas, ?pt_currentPano, ?pt_currentSphere, ?pt_virtualEye, ?pt_promises,
    ?pt_replies, ?pt_requests, ?pt_nextEntity.
  repeat split; reflexivity.
Qed.

(** The two spheres after [shown]. *)
Lemma shown_spheres (now : R) (options : ShowPanoramaOptions) (panoIn : Panorama)
    (st : State) (mIn mOut : Mesh) :
  panoSpheres st !! ((currentSphere st + 1) mod 2)%nat = Some mIn ->
  panoSpheres st !! currentSphere st = Some mOut ->
  let st' := shown now options panoIn st in
  panoSpheres st' !! ((currentSphere st + 1) mod 2)%nat
  = Some (mkMesh (mkMaterial (loadedTexture st (texture panoIn)) 1 true
                             (transparent (material mIn)))
                 (orZero (p_offsetDegrees panoIn) * CesiumMath.RADIANS_PER_DEGREE)
                 (-1, 1, 1) 0%Z) /\
  panoSpheres st' !! currentSphere st
  = Some (mkMesh (mkMaterial (map (material mOut)) 1 true (transparent (material mOut)))
                 (rotation_y mOut) (-0.9, 0.9, 0.9) 1%Z) /\
  length (panoSpheres st') = length (panoSpheres st).
Proof.
  intros HIn HOut. pose proof (toggle_ne (currentSphere st)) as Hne.
  assert (currentSphere st <> ((currentSphere st + 1) mod 2)%nat) as Hne'
    by (intros Heq; apply Hne; symmetry; exact Heq).
  unfold shown. cbv zeta.
  set (sIn := ((currentSphere st + 1) mod 2)%nat) in *.
  cbn [panoSpheres on_sphere set_panoSpheres set_tweens].
  rewrite promise_then_bind_spheres.
  cbn [panoSpheres on_sphere set_panoSpheres set_tweens set_currentSphere set_virtualEye
       set_currentPano].
  match goal with
  | |- context [loadedTexture ?s (texture panoIn)] =>
      change (loadedTexture s (texture panoIn)) with (loadedTexture st (texture panoIn))
  end.
  split; [|split].
  - rewrite list_lookup_alter_ne by exact Hne'.
    rewrite list_lookup_alter_ne by exact Hne'.
    rewrite list_lookup_alter_eq.
    rewrite list_lookup_alter_ne by exact Hne'.
    rewrite !list_lookup_alter_eq.
    destruct (loadedTexture st (texture panoIn)) as [tex|].
    + rewrite !list_lookup_alter_eq, HIn. reflexivity.
    + rewrite list_lookup_alter_eq, HIn. reflexivity.
  - rewrite !list_lookup_alter_eq.
    rewrite list_lookup_alter_ne by exact Hne.
    rewrite list_lookup_alter_eq.
    rewrite !list_lookup_alter_ne by exact Hne.
    destruct (loadedTexture st (texture panoIn)) as [tex|].
    + rewrite !list_lookup_alter_ne by exact Hne. rewrite HOut. reflexivity.
    + rewrite list_lookup_alter_ne by exact Hne. rewrite HOut. reflexivity.
  - destruct (loadedTexture st (texture panoIn)); rewrite !length_alter; reflexivity.
Qed.

Lemma shown_reactions_pending (now : R) (options : ShowPanoramaOptions) (panoIn : Panorama)
    (st : State) :
  promises st !! texture panoIn = Some Pending ->
  reactions (shown now options panoIn st)
  = reactions st ++ [(texture panoIn, BindMap ((currentSphere st + 1) mod 2)%nat)].
Proof.
  intros Hp. unfold shown. cbv zeta.
  cbn [reactions on_sphere set_panoSpheres set_tweens].
  rewrite promise_then_bind_reactions; [reflexivity | exact Hp].
Qed.

(** X8: a [showPanorama] that finds its url makes that entry the current
    panorama and puts the eye at zero offset in the frame of its entity; the
    orientation of the eye and the registry are as before, and the active
    slot is the other one. *)
Theorem showPanorama_reanchors_eye (f : R -> R) (props : list (string * jsval))
    (now : R) (options : ShowPanoramaOptions) (st : State) (panoIn : Panorama)
    (mIn mOut : Mesh) :
  prop (prop TWEEN_Easing "Linear") "None" = JFunction f props ->
  o_url options <> EmptyString ->
  panoramas st !! o_url options = Some panoIn ->
  panoSpheres st !! ((currentSphere st + 1) mod 2)%nat = Some mIn ->
  panoSpheres st !! currentSphere st = Some mOut ->
  exists st',
    showPanorama now options st = Ok tt st' /\
    currentPano st' = Some panoIn /\
    virtualEye st' = mkVirtualEye (eye_orientation (virtualEye st))
                                  (Some (Cartesian3.ZERO, entity panoIn)) /\
    panoramas st' = panoramas st /\
    currentSphere st' = ((currentSphere st + 1) mod 2)%nat.
Proof.
  intros Hlin Hurl Hreg HIn HOut.
  rewrite (showPanorama_succeeds f props now options st panoIn mIn mOut Hlin Hurl Hreg HIn HOut).
  eexists. split; [reflexivity|].
  destruct (shown_fields now options panoIn st) as (Hp & Hc & Hs & He & _).
  repeat split; assumption.
Qed.

(** X9: a [showPanorama] that finds its url leaves exactly one tween,
    whatever tweens there were: it is on the slot that was active, runs from
    the opacity that slot's material had at the call to 0, over the duration
    asked for, or 1000 when none was given, from the time of the call; the
    material itself is back at opacity 1 when the call returns. *)
Theorem showPanorama_starts_one_fade (f : R -> R) (props : list (string * jsval))
    (now : R) (options : ShowPanoramaOptions) (st : State) (panoIn : Panorama)
    (mIn mOut : Mesh) :
  prop (prop TWEEN_Easing "Linear") "None" = JFunction f props ->
  o_url options <> EmptyString ->
  panoramas st !! o_url options = Some panoIn ->
  panoSpheres st !! ((currentSphere st + 1) mod 2)%nat = Some mIn ->
  panoSpheres st !! currentSphere st = Some mOut ->
  exists st' easing,
    showPanorama now options st = Ok tt st' /\
    tweens st'
    = [mkTween (currentSphere st) (opacity (material mOut)) 0
         (match o_transition options with
          | Some (mkTransition _ (Some d)) => d
          | _ => 1000
          end) easing now] /\
    slotOpacity (currentSphere st) st' = Some 1.
Proof.
  intros Hlin Hurl Hreg HIn HOut.
  rewrite (showPanorama_succeeds f props now options st panoIn mIn mOut Hlin Hurl Hreg HIn HOut).
  exists (shown now options panoIn st),
         (easingFor (default (mkTransition None None) (o_transition options))).
  split; [reflexivity|].
  destruct (shown_fields now options panoIn st) as (_ & _ & _ & _ & _ & _ & _ & _ & Htw).
  destruct (shown_spheres now options panoIn st mIn mOut HIn HOut) as (_ & Hout & _).
  split.
  - rewrite Htw, HOut. cbn [from_option].
    destruct (o_transition options) as [[e [d|]]|]; reflexivity.
  - unfold slotOpacity. rewrite Hout. reflexivity.
Qed.

(** X10: the spheres after a [showPanorama] that finds its url. The incoming
    sphere (the slot that was not active) has opacity 1, the yaw
    offsetDegrees * PI / 180 (0 without an offset), scale (-1, 1, 1) and
    render order 0; its texture is the one of the panorama when that has
    loaded already (the callback of [then], which the browser runs as a
    microtask right after the handler, is counted with the call), and none
    otherwise. The outgoing sphere keeps its
    texture and yaw and has opacity 1, scale (-0.9, 0.9, 0.9) and render
    order 1. *)
Theorem showPanorama_spheres (f : R -> R) (props : list (string * jsval))
    (now : R) (options : ShowPanoramaOptions) (st : State) (panoIn : Panorama)
    (mIn mOut : Mesh) :
  prop (prop TWEEN_Easing "Linear") "None" = JFunction f props ->
  o_url options <> EmptyString ->
  panoramas st !! o_url options = Some panoIn ->
  panoSpheres st !! ((currentSphere st + 1) mod 2)%nat = Some mIn ->
  panoSpheres st !! currentSphere st = Some mOut ->
  exists st',
    showPanorama now options st = Ok tt st' /\
    panoSpheres st' !! currentSphere st'
    = Some (mkMesh (mkMaterial (loadedTexture st (texture panoIn)) 1 true
                               (transparent (material mIn)))
                   (default 0 (p_offsetDegrees panoIn) * (PI / 180))
                   (-1, 1, 1) 0%Z) /\
    panoSpheres st' !! currentSphere st
    = Some (mkMesh (mkMaterial (map (material mOut)) 1 true (transparent (material mOut)))
                   (rotation_y mOut) (-0.9, 0.9, 0.9) 1%Z).
Proof.
  intros Hlin Hurl Hreg HIn HOut.
  rewrite (showPanorama_succeeds f props now options st panoIn mIn mOut Hlin Hurl Hreg HIn HOut).
  eexists. split; [reflexivity|].
  destruct (shown_fields now options panoIn st) as (_ & _ & Hs & _).
  destruct (shown_spheres now options panoIn st mIn mOut HIn HOut) as (Hin & Hout & _).
  rewrite Hs. split; [exact Hin | exact Hout].
Qed.

Lemma showPanorama_succeeds_named
    (now : R) (options : ShowPanoramaOptions) (st : State) (panoIn : Panorama)
    (mIn mOut : Mesh) (name : string) (d : option R) :
  o_transition options = Some (mkTransition (Some name) d) ->
  truthy (resolve (Some name) TWEEN_Easing) = true ->
  o_url options <> EmptyString ->
  panoramas st !! o_url options = Some panoIn ->
  panoSpheres st !! ((currentSphere st + 1) mod 2)%nat = Some mIn ->
  panoSpheres st !! currentSphere st = Some mOut ->
  showPanorama now options st = Ok tt (shown now options panoIn st) /\
  tweens (shown now options panoIn st)
  = [mkTween (currentSphere st) (opacity (material mOut)) 0 (default 1000 d)
             (resolve (Some name) TWEEN_Easing) now].
Proof.
  intros Htr Hname Hurl Hreg HIn HOut.
  rewrite showPanorama_unfold. cbv zeta. rewrite Htr.
  unfold easingReadable, easingFor, js_or. cbn [default from_option id Datatypes.id easing]. unfold Datatypes.id. cbn [easing].
  rewrite !Hname. cbn [orb negb].
  destruct (decide (o_url options = EmptyString)); [contradiction|].
  rewrite Hreg, HIn, HOut. split; [reflexivity|].
  destruct (shown_fields now options panoIn st) as (_ & _ & _ & _ & _ & _ & _ & _ & Htw).
  rewrite Htw, Htr, HOut. unfold easingFor, js_or.
  cbn [default from_option]. unfold Datatypes.id. cbn [easing duration].
  rewrite Hname. reflexivity.
Qed.

(** X11: when the easing name of the transition resolves to something truthy
    in [TWEEN.Easing], that value is the easing of the fade. *)
Theorem showPanorama_uses_named_easing
    (now : R) (options : ShowPanoramaOptions) (st : State) (panoIn : Panorama)
    (mIn mOut : Mesh) (name : string) (d : option R) :
  o_transition options = Some (mkTransition (Some name) d) ->
  truthy (resolve (Some name) TWEEN_Easing) = true ->
  o_url options <> EmptyString ->
  panoramas st !! o_url options = Some panoIn ->
  panoSpheres st !! ((currentSphere st + 1) mod 2)%nat = Some mIn ->
  panoSpheres st !! currentSphere st = Some mOut ->
  exists st',
    showPanorama now options st = Ok tt st' /\
    tw_easing <$> tweens st' = [resolve (Some name) TWEEN_Easing].
Proof.
  intros Htr Hname Hurl Hreg HIn HOut.
  destruct (showPanorama_succeeds_named now options st panoIn mIn mOut name d
              Htr Hname Hurl Hreg HIn HOut) as [Hrun Htw].
  exists (shown now options panoIn st). split; [exact Hrun|].
  rewrite Htw. reflexivity.
Qed.

(** X12: two [showPanorama] in a row that find their urls bring the active
    slot back to where it was, and the second fade is on the sphere the first
    one brought in. *)
Theorem showPanorama_twice_toggles_back (f : R -> R) (props : list (string * jsval))
    (now1 now2 : R) (options1 options2 : ShowPanoramaOptions) (st : State)
    (pano1 pano2 : Panorama) (mIn mOut : Mesh) :
  prop (prop TWEEN_Easing "Linear") "None" = JFunction f props ->
  o_url options1 <> EmptyString ->
  o_url options2 <> EmptyString ->
  panoramas st !! o_url options1 = Some pano1 ->
  panoramas st !! o_url options2 = Some pano2 ->
  (currentSphere st < 2)%nat ->
  panoSpheres st !! ((currentSphere st + 1) mod 2)%nat = Some mIn ->
  panoSpheres st !! currentSphere st = Some mOut ->
  exists st1 st2,
    showPanorama now1 options1 st = Ok tt st1 /\
    showPanorama now2 options2 st1 = Ok tt st2 /\
    currentSphere st2 = currentSphere st /\
    tw_object <$> tweens st2 = [currentSphere st1] /\
    currentPano st2 = Some pano2.
Proof.
  intros Hlin Hu1 Hu2 Hr1 Hr2 Hlt HIn HOut.
  rewrite (showPanorama_succeeds f props now1 options1 st pano1 mIn mOut Hlin Hu1 Hr1 HIn HOut).
  set (st1 := shown now1 options1 pano1 st).
  destruct (shown_fields now1 options1 pano1 st) as (Hp1 & _ & Hs1 & _).
  destruct (shown_spheres now1 options1 pano1 st mIn mOut HIn HOut) as (Hin1 & Hout1 & _).
  fold st1 in Hp1, Hs1, Hin1, Hout1.
  assert (((currentSphere st1 + 1) mod 2)%nat = currentSphere st) as Hback.
  { rewrite Hs1. destruct (currentSphere st) as [|[|c]]; [reflexivity | reflexivity | lia]. }
  assert (panoramas st1 !! o_url options2 = Some pano2) as Hr2' by (rewrite Hp1; exact Hr2).
  assert (exists m, panoSpheres st1 !! ((currentSphere st1 + 1) mod 2)%nat = Some m)
    as [mIn2 HIn2] by (rewrite Hback; eauto).
  assert (exists m, panoSpheres st1 !! currentSphere st1 = Some m)
    as [mOut2 HOut2] by (rewrite Hs1; eauto).
  exists st1. eexists. split; [reflexivity|].
  rewrite (showPanorama_succeeds f props now2 options2 st1 pano2 mIn2 mOut2
             Hlin Hu2 Hr2' HIn2 HOut2).
  split; [reflexivity|].
  destruct (shown_fields now2 options2 pano2 st1) as (_ & Hc2 & Hs2 & _ & _ & _ & _ & _ & Htw2).
  rewrite Hs2, Htw2, Hc2, Hback. repeat split; reflexivity.
Qed.

Lemma loaderEvent_fulfils_promise (i p : nat) (tex : Texture) (st : State) (req : LoadRequest) :
  requests st !! i = Some req ->
  req_onLoad req = Some (ResolveTexture p) ->
  promises st !! p = Some Pending ->
  promises (loaderEvent i (ImageLoaded tex) st) !! p
  = Some (Fulfilled (mkTexture (image tex) LinearFilter)).
Proof.
  intros Hreq Hon Hpend. unfold loaderEvent. rewrite Hreq, Hon. cbn [runOnLoad].
  unfold settle. rewrite Hpend. cbv zeta. rewrite run_reactions_promises.
  cbn [promises set_reactions set_promises].
  apply list_lookup_insert_eq. apply lookup_lt_Some in Hpend. exact Hpend.
Qed.

Lemma loaded_request (pano : PanoramaInfo) (st : State) :
  requests (loaded pano st) !! length (requests st)
  = Some (mkLoadRequest (url pano) (Some (ResolveTexture (length (promises st)))) None)
  /\ promises (loaded pano st) !! length (promises st) = Some Pending.
Proof.
  cbn [requests promises loaded]. split; rewrite lookup_app_r by lia.
  - replace (length (requests st) - length (requests st))%nat with 0%nat by lia. reflexivity.
  - replace (length (promises st) - length (promises st))%nat with 0%nat by lia. reflexivity.
Qed.

(** X13: a panorama shown before its texture has loaded: the incoming sphere
    has no texture when [showPanorama] returns, and when the loader delivers
    the image that sphere gets it, with the linear filter. *)
Theorem texture_bound_on_arrival (f : R -> R) (props : list (string * jsval))
    (now : R) (pano : PanoramaInfo) (transition : option Transition) (st : State)
    (mIn mOut : Mesh) :
  prop (prop TWEEN_Easing "Linear") "None" = JFunction f props ->
  url pano <> EmptyString ->
  panoSpheres st !! ((currentSphere st + 1) mod 2)%nat = Some mIn ->
  panoSpheres st !! currentSphere st = Some mOut ->
  exists reply st1 st2,
    loadPanorama pano st = Ok reply st1 /\
    showPanorama now (mkShowPanoramaOptions (url pano) transition) st1 = Ok tt st2 /\
    slotMap (currentSphere st2) st2 = Some None /\
    forall tex : Texture,
      slotMap (currentSphere st2)
              (loaderEvent (length (requests st)) (ImageLoaded tex) st2)
      = Some (Some (mkTexture (image tex) LinearFilter)).
Proof.
  intros Hlin Hurl HIn HOut. rewrite (loadPanorama_ok _ _ Hurl).
  set (st1 := loaded pano st). set (entry := entryOf pano st).
  destruct (loaded_request pano st) as [Hreq Hpend]. fold st1 in Hreq, Hpend.
  assert (panoramas st1 !! url pano = Some entry) as Hreg by apply lookup_insert_eq.
  exists (length (replies st)), st1. eexists. split; [reflexivity|].
  rewrite (showPanorama_succeeds f props now (mkShowPanoramaOptions (url pano) transition)
             st1 entry mIn mOut Hlin Hurl Hreg HIn HOut).
  split; [reflexivity|].
  set (opts := mkShowPanoramaOptions (url pano) transition).
  destruct (shown_fields now opts entry st1) as (_ & _ & Hs & _ & Hprom & _ & Hrq & _).
  destruct (shown_spheres now opts entry st1 mIn mOut HIn HOut) as (Hin2 & _ & Hlen).
  assert (loadedTexture st1 (texture entry) = None) as Hnone.
  { unfold loadedTexture. change (texture entry) with (length (promises st)).
    rewrite Hpend. reflexivity. }
  rewrite Hs. split.
  - unfold slotMap. rewrite Hin2, Hnone. reflexivity.
  - intros tex.
    apply (loaderEvent_binds _ (length (promises st)) _ _ _
             (mkLoadRequest (url pano) (Some (ResolveTexture (length (promises st)))) None)).
    + rewrite Hrq. exact Hreq.
    + reflexivity.
    + rewrite Hprom. exact Hpend.
    + rewrite (shown_reactions_pending now opts entry st1) by exact Hpend.
      apply elem_of_app. right. apply list_elem_of_singleton. reflexivity.
    + rewrite Hlen. apply lookup_lt_Some in HIn. exact HIn.
Qed.

(** X14: a panorama shown after its texture has loaded: the incoming sphere
    has the texture, with the linear filter, once [showPanorama] and the
    callback of [then] it queued have run. *)
Theorem texture_bound_at_show (f : R -> R) (props : list (string * jsval))
    (now : R) (pano : PanoramaInfo) (transition : option Transition) (st : State)
    (tex : Texture) (mIn mOut : Mesh) :
  prop (prop TWEEN_Easing "Linear") "None" = JFunction f props ->
  url pano <> EmptyString ->
  panoSpheres st !! ((currentSphere st + 1) mod 2)%nat = Some mIn ->
  panoSpheres st !! currentSphere st = Some mOut ->
  exists reply st1 st2,
    loadPanorama pano st = Ok reply st1 /\
    showPanorama now (mkShowPanoramaOptions (url pano) transition)
                 (loaderEvent (length (requests st)) (ImageLoaded tex) st1) = Ok tt st2 /\
    slotMap (currentSphere st2) st2 = Some (Some (mkTexture (image tex) LinearFilter)).
Proof.
  intros Hlin Hurl HIn HOut. rewrite (loadPanorama_ok _ _ Hurl).
  set (st1 := loaded pano st). set (entry := entryOf pano st).
  destruct (loaded_request pano st) as [Hreq Hpend]. fold st1 in Hreq, Hpend.
  set (st1' := loaderEvent (length (requests st)) (ImageLoaded tex) st1).
  pose proof (loaderEvent_besides (length (requests st)) (ImageLoaded tex) st1) as Hb.
  fold st1' in Hb. unfold besidesTextures in Hb.
  injection Hb as Hpan _ Hsph _ _ _ _ Hlen _ _.
  assert (panoramas st1' !! url pano = Some entry) as Hreg
    by (rewrite Hpan; apply lookup_insert_eq).
  assert (exists m, panoSpheres st1' !! ((currentSphere st1' + 1) mod 2)%nat = Some m)
    as [mIn' HIn'].
  { apply lookup_lt_is_Some_2. rewrite Hlen, Hsph. apply lookup_lt_Some in HIn. exact HIn. }
  assert (exists m, panoSpheres st1' !! currentSphere st1' = Some m) as [mOut' HOut'].
  { apply lookup_lt_is_Some_2. rewrite Hlen, Hsph. apply lookup_lt_Some in HOut. exact HOut. }
  exists (length (replies st)), st1. eexists. split; [reflexivity|]. fold st1'.
  rewrite (showPanorama_succeeds f props now (mkShowPanoramaOptions (url pano) transition)
             st1' entry mIn' mOut' Hlin Hurl Hreg HIn' HOut').
  split; [reflexivity|].
  set (opts := mkShowPanoramaOptions (url pano) transition).
  destruct (shown_fields now opts entry st1') as (_ & _ & Hs & _).
  destruct (shown_spheres now opts entry st1' mIn' mOut' HIn' HOut') as (Hin2 & _ & _).
  rewrite Hs. unfold slotMap. rewrite Hin2. cbn [fmap option_fmap option_map material map].
  unfold loadedTexture. change (texture entry) with (length (promises st)).
  subst st1'.
  rewrite (loaderEvent_fulfils_promise _ _ tex st1 _ Hreq eq_refl Hpend). reflexivity.
Qed.

(** ** The update event *)

Lemma TWEEN_update_loop_idle (t : R) (todo : list Tween) :
  forall (kept : list Tween) (st : State),
    (forall tw, tw ∈ todo -> t < tw_startTime tw) ->
    TWEEN_update_loop t kept todo st = Ok tt st.
Proof.
  induction todo as [|tw rest IH]; intros kept st Hall; [reflexivity|].
  cbn [TWEEN_update_loop]. rewrite bind_eq. unfold Tween_update.
  destruct (Rlt_dec t (tw_startTime tw)) as [_|Hge].
  - cbn. apply IH. intros tw' Hin. apply Hall. apply elem_of_cons. right. exact Hin.
  - exfalso. apply Hge. apply Hall. apply elem_of_cons. left. reflexivity.
Qed.

Lemma updateEvent_idle (t : R) (st : State) :
  (forall tw, tw ∈ tweens st -> t < tw_startTime tw) ->
  updateEvent t st = Ok tt st.
Proof.
  intros Hall. unfold updateEvent. rewrite bind_eq. unfold gets.
  apply TWEEN_update_loop_idle. exact Hall.
Qed.

(** X15: an update event at a time when no tween has started yet (in
    particular when there is no tween) changes nothing and keeps the tweens. *)
Theorem updateEvent_before_start (t : R) (st : State) :
  (forall tw, tw ∈ tweens st -> t < tw_startTime tw) ->
  updateEvent t st = Ok tt st.
Proof. apply updateEvent_idle. Qed.

(** The update event on a state whose one tween has started and has an easing
    that is a function: the state it leaves. *)
Lemma updateEvent_single_state (t : R) (st : State) (tw : Tween)
    (f : R -> R) (props : list (string * jsval)) :
  tweens st = [tw] ->
  tw_easing tw = JFunction f props ->
  tw_startTime tw <= t ->
  tw_duration tw <> 0 ->
  updateEvent t st
  = let st1 :=
      on_sphere (tw_object tw) (set_material (fun m =>
        set_needsUpdate true
          (set_opacity (tw_valuesStart tw
                        + (tw_valuesEnd tw - tw_valuesStart tw) * f (elapsedAt tw t)) m))) st in
    Ok tt (if Req_dec_T (elapsedAt tw t) 1 then set_tweens [] st1 else st1).
Proof.
  intros Htws Hease Hstart Hdur.
  unfold updateEvent. rewrite bind_eq. unfold gets. rewrite Htws.
  cbn [TWEEN_update_loop]. rewrite bind_eq. unfold Tween_update.
  destruct (Rlt_dec t (tw_startTime tw)) as [Hlt|_]; [lra|].
  destruct (Req_dec_T (tw_duration tw) 0) as [Hz|_]; [contradiction|].
  rewrite Hease.
  assert ((if Rgt_dec ((t - tw_startTime tw) / tw_duration tw) 1 then 1
           else (t - tw_startTime tw) / tw_duration tw) = elapsedAt tw t) as ->.
  { unfold elapsedAt.
    destruct (Rgt_dec ((t - tw_startTime tw) / tw_duration tw) 1) as [Hgt|Hle].
    - rewrite Rmin_left by lra. reflexivity.
    - rewrite Rmin_right by lra. reflexivity. }
  rewrite bind_eq. unfold modify. cbv beta iota zeta.
  destruct (Req_dec_T (elapsedAt tw t) 1); reflexivity.
Qed.

Lemma elapsedAt_running (tw : Tween) (t : R) :
  0 < tw_duration tw ->
  t < tw_startTime tw + tw_duration tw ->
  elapsedAt tw t = (t - tw_startTime tw) / tw_duration tw /\ elapsedAt tw t <> 1.
Proof.
  intros Hd Ht. unfold elapsedAt.
  assert ((t - tw_startTime tw) / tw_duration tw < 1) as Hlt.
  { apply (Rmult_lt_reg_r (tw_duration tw)); [exact Hd|].
    unfold Rdiv. rewrite Rmult_assoc, Rinv_l by lra. lra. }
  rewrite Rmin_right by lra. split; [reflexivity | lra].
Qed.

Lemma elapsedAt_over (tw : Tween) (t : R) :
  0 < tw_duration tw ->
  tw_startTime tw + tw_duration tw <= t ->
  elapsedAt tw t = 1.
Proof.
  intros Hd Ht. unfold elapsedAt.
  assert (1 <= (t - tw_startTime tw) / tw_duration tw) as Hge.
  { apply (Rmult_le_reg_r (tw_duration tw)); [exact Hd|].
    unfold Rdiv. rewrite Rmult_assoc, Rinv_l by lra. lra. }
  apply Rmin_left. exact Hge.
Qed.

(** X16: while the one fade runs (from its start to before its end) an update
    event sets the opacity of its material to
    start + (end - start) * easing((t - startTime) / duration), marks the
    material for update, and keeps the tween. *)
Theorem updateEvent_fade_running (t : R) (st : State) (tw : Tween) (m : Mesh)
    (f : R -> R) (props : list (string * jsval)) :
  tweens st = [tw] ->
  tw_easing tw = JFunction f props ->
  panoSpheres st !! tw_object tw = Some m ->
  0 < tw_duration tw ->
  tw_startTime tw <= t < tw_startTime tw + tw_duration tw ->
  exists st',
    updateEvent t st = Ok tt st' /\
    tweens st' = [tw] /\
    (material <$> panoSpheres st' !! tw_object tw)
    = Some (mkMaterial (map (material m))
              (tw_valuesStart tw + (tw_valuesEnd tw - tw_valuesStart tw)
                                   * f ((t - tw_startTime tw) / tw_duration tw))
              true (transparent (material m))).
Proof.
  intros Htws Hease Hm Hd [Hs He].
  rewrite (updateEvent_single_state t st tw f props Htws Hease Hs) by lra. cbv zeta.
  destruct (elapsedAt_running tw t Hd He) as [Hel Hne].
  destruct (Req_dec_T (elapsedAt tw t) 1) as [Heq|_]; [contradiction|].
  eexists. split; [reflexivity|]. split; [exact Htws|].
  cbn [panoSpheres on_sphere set_panoSpheres].
  rewrite list_lookup_alter_eq, Hm, Hel. reflexivity.
Qed.

(** X17: at or after the end of the one fade an update event sets the
    opacity of its material to start + (end - start) * easing(1), marks the
    material for update, and removes the tween. *)
Theorem updateEvent_fade_completes (t : R) (st : State) (tw : Tween) (m : Mesh)
    (f : R -> R) (props : list (string * jsval)) :
  tweens st = [tw] ->
  tw_easing tw = JFunction f props ->
  panoSpheres st !! tw_object tw = Some m ->
  0 < tw_duration tw ->
  tw_startTime tw + tw_duration tw <= t ->
  exists st',
    updateEvent t st = Ok tt st' /\
    tweens st' = [] /\
    (material <$> panoSpheres st' !! tw_object tw)
    = Some (mkMaterial (map (material m))
              (tw_valuesStart tw + (tw_valuesEnd tw - tw_valuesStart tw) * f 1)
              true (transparent (material m))).
Proof.
  intros Htws Hease Hm Hd He.
  rewrite (updateEvent_single_state t st tw f props Htws Hease) by lra. cbv zeta.
  pose proof (elapsedAt_over tw t Hd He) as Hel.
  destruct (Req_dec_T (elapsedAt tw t) 1) as [_|Hne]; [|contradiction].
  eexists. split; [reflexivity|]. split; [reflexivity|].
  cbn [panoSpheres on_sphere set_panoSpheres set_tweens].
  rewrite list_lookup_alter_eq, Hm, Hel. reflexivity.
Qed.

(** X18: an easing name that resolves to something truthy that is not a
    function (a family of [TWEEN.Easing], say) is accepted by [showPanorama];
    the update events from the start of the fade on then throw, and leave
    the tween in place. *)
Theorem named_non_function_easing_breaks_update
    (now t : R) (options : ShowPanoramaOptions) (st : State) (panoIn : Panorama)
    (mIn mOut : Mesh) (name : string) (d : option R) :
  o_transition options = Some (mkTransition (Some name) d) ->
  truthy (resolve (Some name) TWEEN_Easing) = true ->
  (forall g ps, resolve (Some name) TWEEN_Easing <> JFunction g ps) ->
  o_url options <> EmptyString ->
  panoramas st !! o_url options = Some panoIn ->
  panoSpheres st !! ((currentSphere st + 1) mod 2)%nat = Some mIn ->
  panoSpheres st !! currentSphere st = Some mOut ->
  now <= t ->
  exists st',
    showPanorama now options st = Ok tt st' /\
    updateEvent t st' = Throw (TypeError "easing is not a function") st'.
Proof.
  intros Htr Hname Hnf Hurl Hreg HIn HOut Ht.
  destruct (showPanorama_succeeds_named now options st panoIn mIn mOut name d
              Htr Hname Hurl Hreg HIn HOut) as [Hrun Htw].
  exists (shown now options panoIn st). split; [exact Hrun|].
  unfold updateEvent. rewrite bind_eq. unfold gets. rewrite Htw.
  cbn [TWEEN_update_loop]. rewrite bind_eq. unfold Tween_update.
  cbn [tw_startTime tw_easing].
  destruct (Rlt_dec t now) as [Hlt|_]; [lra|].
  destruct (resolve (Some name) TWEEN_Easing) as [| | | |g ps] eqn:Hv; try reflexivity.
  exfalso. apply (Hnf g ps). reflexivity.
Qed.

(** ** More on the frame handler *)

Lemma set_eye_orientation_same (st : State) :
  set_eye_orientation (eye_orientation (virtualEye st)) st = st.
Proof. destruct st as [? ? ? ? [q pos] ? ? ? ? ? ?]. reflexivity. Qed.

Lemma set_eye_orientation_twice (q1 q2 : Quaternion) (st : State) :
  set_eye_orientation q2 (set_eye_orientation q1 st) = set_eye_orientation q2 st.
Proof. reflexivity. Qed.

Lemma afterDevice_state (host : Host) (st : State) :
  exists q, afterDevice host st = set_eye_orientation q st.
Proof.
  unfold afterDevice. destruct (deviceUserOrientation host) as [q|].
  - exists q. reflexivity.
  - exists (eye_orientation (virtualEye st)). symmetry. apply set_eye_orientation_same.
Qed.

Lemma applyDrag_state (host : Host) (t : R) (frustum : PerspectiveFrustum) (st : State) :
  exists q, stateOf (applyDrag host t frustum st) = set_eye_orientation q st.
Proof.
  assert (exists q, st = set_eye_orientation q st) as Hsame
    by (exists (eye_orientation (virtualEye st)); symmetry; apply set_eye_orientation_same).
  unfold applyDrag.
  destruct (deviceUserOrientation host) as [q0|]; [exact Hsame|].
  destruct (leftDrag (aggregator host)) as [[startX endX]|]; [|exact Hsame].
  step_M. destruct (currentPano st) as [p|]; [|exact Hsame].
  step_M.
  destruct (getEntityOrientationInReferenceFrame host (virtualEye st) t (entity p)) as [cur|];
    [|exact Hsame].
  eexists. reflexivity.
Qed.

Lemma frameStateEvent_state (host : Host) (frameState : FrameState) (st : State) :
  exists q, stateOf (frameStateEvent host frameState st) = set_eye_orientation q st.
Proof.
  destruct (afterDevice_state host st) as [q0 Hq0].
  assert (exists q, afterDevice host st = set_eye_orientation q st) as Hafter by eauto.
  destruct (strict frameState) eqn:Hstrict.
  - rewrite (frameStateEvent_strict _ _ _ Hstrict). exact Hafter.
  - destruct (fs_subviews frameState !! 0%nat) as [s0|] eqn:Hs0.
    + destruct (view_subviews host !! 0%nat) as [v0|] eqn:Hv0.
      * rewrite (frameStateEvent_nonstrict _ _ _ _ _ Hstrict Hs0 Hv0). cbv zeta.
        match goal with
        | |- context [applyDrag ?h ?t ?fr ?s] =>
            destruct (applyDrag_state h t fr s) as [q Hq];
            destruct (applyDrag h t fr s) as [[] st1|e st1]
        end; cbn [stateOf] in *; rewrite Hq, Hq0; eexists; reflexivity.
      * unfold frameStateEvent. rewrite Hstrict, Hs0, Hv0. fold (afterDevice host st).
        unfold afterDevice in *.
        destruct (deviceUserOrientation host); cbn; exact Hafter.
    + unfold frameStateEvent. rewrite Hstrict, Hs0. unfold afterDevice in *.
      destruct (deviceUserOrientation host); cbn; exact Hafter.
Qed.

(** X19: whatever the tick and the state, and whether it returns or throws,
    the frame handler changes nothing but the orientation of the eye: the
    registry, the pointer, the spheres, the tweens, the promises and the
    position of the eye are as before. *)
Theorem frameStateEvent_changes_only_eye_orientation
    (host : Host) (frameState : FrameState) (st : State) :
  exists q, stateOf (frameStateEvent host frameState st) = set_eye_orientation q st.
Proof. apply frameStateEvent_state. Qed.

(** X23: a strict tick returns whatever is dragged and whether or not a
    panorama is shown, and it publishes the sub-views of the host untouched:
    no projection is overridden. The eye it publishes has the orientation of
    the device when there is one. *)
Theorem frameStateEvent_strict_publishes_untouched
    (host : Host) (frameState : FrameState) (st : State) :
  strict frameState = true ->
  exists cfs st',
    frameStateEvent host frameState st = Ok cfs st' /\
    cfs_subviews cfs = fs_subviews frameState /\
    cfs_eye cfs = virtualEye st' /\
    eye_orientation (virtualEye st')
    = default (eye_orientation (virtualEye st)) (deviceUserOrientation host).
Proof.
  intros Hstrict. rewrite (frameStateEvent_strict _ _ _ Hstrict).
  eexists _, _. split; [reflexivity|]. split; [reflexivity|]. split; [reflexivity|].
  unfold afterDevice. destruct (deviceUserOrientation host); reflexivity.
Qed.

(** X20: when the device gives an orientation, the tick returns (strict, or
    with a first sub-view on both sides), and the orientation of the eye it
    leaves and publishes is the device's, whatever is dragged and whether or
    not a panorama is shown. *)
Theorem frameStateEvent_device_orientation_wins
    (host : Host) (frameState : FrameState) (st : State) (q : Quaternion) :
  deviceUserOrientation host = Some q ->
  strict frameState = true
  \/ (is_Some (fs_subviews frameState !! 0%nat) /\ is_Some (view_subviews host !! 0%nat)) ->
  exists cfs st',
    frameStateEvent host frameState st = Ok cfs st' /\
    cfs_eye cfs = virtualEye st' /\
    virtualEye st' = mkVirtualEye q (eye_position (virtualEye st)).
Proof.
  intros Hdev Hcan.
  assert (afterDevice host st = set_eye_orientation q st) as Hafter
    by (unfold afterDevice; rewrite Hdev; reflexivity).
  destruct (strict frameState) eqn:Hstrict.
  - rewrite (frameStateEvent_strict _ _ _ Hstrict), Hafter.
    eexists _, _. split; [reflexivity|]. split; reflexivity.
  - destruct Hcan as [Hs|[[s0 Hs0] [v0 Hv0]]]; [discriminate|].
    rewrite (frameStateEvent_nonstrict _ _ _ _ _ Hstrict Hs0 Hv0). cbv zeta.
    rewrite applyDrag_skipped by (left; rewrite Hdev; eauto).
    rewrite Hafter. eexists _, _. split; [reflexivity|]. split; reflexivity.
Qed.

(** X21: a tick that is not strict and brings no sub-view throws and
    publishes nothing; the eye has taken the orientation of the device
    before. *)
Theorem frameStateEvent_without_subviews_throws
    (host : Host) (frameState : FrameState) (st : State) :
  strict frameState = false ->
  fs_subviews frameState = [] ->
  frameStateEvent host frameState st
  = Throw (TypeError "Cannot read property 'projectionMatrix' of undefined")
          (afterDevice host st).
Proof.
  intros Hstrict Hnone. unfold frameStateEvent, afterDevice. rewrite Hstrict, Hnone.
  destruct (deviceUserOrientation host); reflexivity.
Qed.

(** X22: the aspect ratio the handler gives the frustum is never zero: it is
    width / height when neither is zero, and 1 otherwise. *)
Theorem aspectOf_guard (vp : Viewport) :
  aspectOf vp <> 0 /\
  (vp_height vp <> 0 -> vp_width vp <> 0 -> aspectOf vp = vp_width vp / vp_height vp) /\
  (vp_height vp = 0 \/ vp_width vp = 0 -> aspectOf vp = 1).
Proof.
  unfold aspectOf.
  destruct (Req_dec_T (vp_height vp) 0) as [Hh|Hh].
  - split; [lra|]. split; [intros; contradiction | reflexivity].
  - destruct (Req_dec_T (vp_width vp / vp_height vp) 0) as [Hq|Hq].
    + split; [lra|]. split; [|reflexivity].
      intros _ Hw. exfalso. apply Hw.
      apply (Rmult_eq_reg_r (/ vp_height vp)).
      * unfold Rdiv in Hq. rewrite Hq. ring.
      * apply Rinv_neq_0_compat. exact Hh.
    + split; [exact Hq|]. split; [reflexivity|].
      intros [Hz|Hz]; [contradiction|]. exfalso. apply Hq. rewrite Hz. unfold Rdiv. ring.
Qed.

Lemma normSq_multiply (a b : Quaternion) :
  normSq (Quaternion.multiply a b) = normSq a * normSq b.
Proof. destruct a, b. unfold normSq, Quaternion.multiply. cbn. ring. Qed.

Lemma normSq_yaw (angle : R) :
  normSq (Quaternion.fromAxisAngle Cartesian3.UNIT_Y angle) = 1.
Proof.
  unfold normSq, Quaternion.fromAxisAngle, Cartesian3.normalize, Cartesian3.magnitude,
    Cartesian3.UNIT_Y.
  cbn [qx qy qz qw c3x c3y c3z].
  replace (0 * 0 + 1 * 1 + 0 * 0) with 1 by ring. rewrite sqrt_1.
  pose proof (sin2_cos2 (angle / 2)) as Hsc. unfold Rsqr in Hsc.
  replace (0 / 1 * sin (angle / 2)) with 0 by (unfold Rdiv; ring).
  replace (1 / 1 * sin (angle / 2)) with (sin (angle / 2)) by (unfold Rdiv; field).
  lra.
Qed.

(** X24: the drag keeps the eye a rotation, on a view viewport whose width
    is not zero: when the orientation the host reports for the eye is a unit
    quaternion, so is the orientation the drag step sets and publishes. (The
    handler divides by the width without a test; at width 0 the angle of the
    yaw is an infinity or not a number, and so is the orientation.) *)
Theorem frameStateEvent_drag_keeps_unit
    (host : Host) (frameState : FrameState) (st : State)
    (s0 : SerializedSubview) (viewFrustum : PerspectiveFrustum)
    (startX endX : R) (p : Panorama) (cur : Quaternion) :
  strict frameState = false ->
  fs_subviews frameState !! 0%nat = Some s0 ->
  view_subviews host !! 0%nat = Some viewFrustum ->
  deviceUserOrientation host = None ->
  leftDrag (aggregator host) = Some (startX, endX) ->
  currentPano st = Some p ->
  getEntityOrientationInReferenceFrame host (virtualEye st) (time frameState) (entity p)
  = Some cur ->
  normSq cur = 1 ->
  vp_width (view_viewport host) <> 0 ->
  exists cfs st',
    frameStateEvent host frameState st = Ok cfs st' /\
    normSq (eye_orientation (virtualEye st')) = 1 /\
    normSq (eye_orientation (cfs_eye cfs)) = 1.
Proof.
  intros Hstrict Hs0 Hv0 Hdev Hdrag Hcur Hrel Hunit Hwidth.
  rewrite (frameStateEvent_nonstrict _ _ _ _ _ Hstrict Hs0 Hv0). cbv zeta.
  unfold afterDevice. rewrite Hdev.
  rewrite (applyDrag_turns _ _ _ _ _ _ _ _ Hdev Hdrag Hcur Hrel).
  eexists _, _. split; [reflexivity|].
  cbn [cfs_eye virtualEye set_eye_orientation set_virtualEye eye_orientation].
  rewrite normSq_multiply, normSq_yaw, Hunit. split; ring.
Qed.

(** ** More on the field of view *)

(** X25: as soon as the wheel or the pinch moves in a tick, the field of
    view the fusion step gives lies in [PI/8, PI - PI/8], wherever it
    started. *)
Theorem fuseFov_gesture_forces_bounds (fov0 : R) (agg : Aggregator) :
  is_Some (wheel agg) \/ is_Some (pinch agg) ->
  fovInBounds (fuseFov fov0 agg).
Proof.
  intros Hmove. unfold fuseFov.
  destruct (pinch agg) as [[startY endY]|]; [apply clampFov_bounds|].
  destruct Hmove as [[diff Hw]|[x Hx]]; [|discriminate].
  rewrite Hw. apply clampFov_bounds.
Qed.

Lemma clampFov_id (x : R) : fovInBounds x -> clampFov x = x.
Proof.
  intros [Hlo Hhi]. unfold clampFov.
  rewrite Rmax_left by lra. apply Rmin_left. lra.
Qed.

Lemma clampFov_mono (x y : R) : x <= y -> clampFov x <= clampFov y.
Proof.
  intros Hxy. unfold clampFov.
  apply Rle_min_compat_r. apply Rle_max_compat_r. exact Hxy.
Qed.

(** X26: the wheel alone, from a field of view within bounds: a delta of
    zero leaves it as it is, a positive delta never widens it and a negative
    delta never narrows it. *)
Theorem fuseFov_wheel_direction (fov0 diff : R) :
  fovInBounds fov0 ->
  let fov1 := fuseFov fov0 (mkAggregator (Some diff) None None) in
  (diff = 0 -> fov1 = fov0) /\
  (0 <= diff -> fov1 <= fov0) /\
  (diff <= 0 -> fov0 <= fov1).
Proof.
  intros Hin fov1. subst fov1. unfold fuseFov. cbn [wheel pinch].
  pose proof (clampFov_id fov0 Hin) as Hid.
  split; [|split].
  - intros ->. replace (fov0 - 0 * 0.02) with fov0 by ring. exact Hid.
  - intros Hd. rewrite <- Hid at 2. apply clampFov_mono. lra.
  - intros Hd. rewrite <- Hid at 1. apply clampFov_mono. lra.
Qed.

(** ** resolve *)

Lemma split_dot_nonempty (s : string) : split_dot s <> [].
Proof.
  destruct s as [|c rest]; [discriminate|]. cbn [split_dot].
  destruct (decide (c = "."%char)); [discriminate|].
  destruct (split_dot rest); discriminate.
Qed.

Lemma split_dot_cons (c : ascii) (rest : string) :
  split_dot (String c rest)
  = if decide (c = "."%char) then EmptyString :: split_dot rest
    else match split_dot rest with
         | [] => [String c EmptyString]
         | w :: ws => String c w :: ws
         end.
Proof. reflexivity. Qed.

Lemma split_dot_app (a b : string) :
  split_dot (String.append a (String "."%char b)) = split_dot a ++ split_dot b.
Proof.
  induction a as [|c rest IH].
  - change (String.append EmptyString (String "."%char b)) with (String "."%char b).
    rewrite split_dot_cons.
    destruct (decide ("."%char = "."%char)); [reflexivity | contradiction].
  - change (String.append (String c rest) (String "."%char b))
      with (String c (String.append rest (String "."%char b))).
    rewrite !split_dot_cons, IH.
    destruct (decide (c = "."%char)); [reflexivity|].
    pose proof (split_dot_nonempty rest) as Hne.
    destruct (split_dot rest) as [|w ws]; [contradiction | reflexivity].
Qed.

Lemma resolve_steps_from_falsy (parts : list string) (v : jsval) :
  truthy v = false ->
  parts <> [] ->
  foldl (fun prev curr => if truthy prev then prop prev curr else JUndefined) v parts
  = JUndefined.
Proof.
  intros Hv Hne. destruct parts as [|part rest]; [contradiction|].
  cbn [foldl]. rewrite Hv. clear. induction rest as [|x xs IH]; [reflexivity|].
  cbn [foldl truthy]. exact IH.
Qed.

Lemma append_dot_not_empty (a b : string) :
  String.append a (String "."%char b) <> EmptyString.
Proof. destruct a; discriminate. Qed.

(** X27: [resolve] walks a dotted path one name at a time: the value of
    "a.b" in an object is the value of "b" in the value of "a", and it is
    undefined, without an error, as soon as the value of "a" is falsy. *)
Theorem resolve_path_composition (a b : string) (obj : jsval) :
  truthy obj = true ->
  a <> EmptyString ->
  b <> EmptyString ->
  resolve (Some (String.append a (String "."%char b))) obj
  = if truthy (resolve (Some a) obj) then resolve (Some b) (resolve (Some a) obj)
    else JUndefined.
Proof.
  intros Hobj Ha Hb. unfold resolve.
  destruct (decide (String.append a (String "."%char b) = EmptyString)) as [He|_];
    [exfalso; exact (append_dot_not_empty a b He)|].
  destruct (decide (a = EmptyString)) as [?|_]; [contradiction|].
  destruct (decide (b = EmptyString)) as [?|_]; [contradiction|].
  rewrite split_dot_app, foldl_app.
  set (v := foldl _ obj (split_dot a)).
  destruct (truthy v) eqn:Hv; [reflexivity|].
  apply resolve_steps_from_falsy; [exact Hv | apply split_dot_nonempty].
Qed.

(** ** Invariants of the viewer over all its events *)

Lemma handle_show_cases (now : R) (options : ShowPanoramaOptions) (st : State)
    (mIn mOut : Mesh) :
  panoSpheres st !! ((currentSphere st + 1) mod 2)%nat = Some mIn ->
  panoSpheres st !! currentSphere st = Some mOut ->
  stateOf (handle (ShowPanorama now options) st) = st
  \/ exists panoIn,
       panoramas st !! o_url options = Some panoIn /\
       stateOf (handle (ShowPanorama now options) st) = shown now options panoIn st.
Proof.
  intros HIn HOut. unfold handle. rewrite showPanorama_unfold. cbv zeta.
  destruct (negb (easingReadable _)); [left; reflexivity|].
  destruct (decide (o_url options = EmptyString)); [left; reflexivity|].
  destruct (negb (truthy _)); [left; reflexivity|].
  destruct (panoramas st !! o_url options) as [panoIn|]; [|left; reflexivity].
  rewrite HIn, HOut. right. exists panoIn. split; reflexivity.
Qed.

Lemma updateEvent_cases (t : R) (st : State) (tw : Tween) :
  tweens st = [tw] ->
  exists x,
    let st1 := on_sphere (tw_object tw) (set_material (fun m =>
                 set_needsUpdate true (set_opacity x m))) st in
    stateOf (updateEvent t st) = st
    \/ stateOf (updateEvent t st) = st1
    \/ stateOf (updateEvent t st) = set_tweens [] st1.
Proof.
  intros Htws. unfold updateEvent. rewrite bind_eq. unfold gets. rewrite Htws.
  cbn [TWEEN_update_loop]. rewrite bind_eq. unfold Tween_update.
  destruct (Rlt_dec t (tw_startTime tw)); [exists 0; left; reflexivity|].
  destruct (tw_easing tw) as [| | | |f ps]; try (exists 0; left; reflexivity).
  rewrite bind_eq. unfold modify. cbv beta iota zeta.
  eexists.
  match goal with
  | |- context [if ?c then false else true] => destruct c
  end; cbn; [right; right; reflexivity | right; left; reflexivity].
Qed.

Lemma toggle_twice (c : nat) : (c < 2)%nat -> (((c + 1) mod 2 + 1) mod 2)%nat = c.
Proof. intros Hc. destruct c as [|[|c]]; [reflexivity | reflexivity | lia]. Qed.

Lemma toggle_lt (c : nat) : ((c + 1) mod 2 < 2)%nat.
Proof. apply Nat.mod_upper_bound. lia. Qed.

Lemma slots_present (st : State) :
  slotsInvariant st ->
  exists mIn mOut,
    panoSpheres st !! ((currentSphere st + 1) mod 2)%nat = Some mIn /\
    panoSpheres st !! currentSphere st = Some mOut.
Proof.
  intros (Hlen & Hcur & _).
  destruct (lookup_lt_is_Some_2 (panoSpheres st) ((currentSphere st + 1) mod 2)%nat)
    as [mIn HIn]; [rewrite Hlen; apply toggle_lt|].
  destruct (lookup_lt_is_Some_2 (panoSpheres st) (currentSphere st)) as [mOut HOut];
    [rewrite Hlen; exact Hcur|].
  eauto.
Qed.

Lemma entity_id_anchorOf (pano : PanoramaInfo) (id : nat) :
  entity_id (anchorOf pano id) = id.
Proof.
  unfold anchorOf. destruct (defined (longitude pano) && defined (longitude pano)); reflexivity.
Qed.

Lemma step_keeps_slots (e : Event) (st : State) :
  slotsInvariant st -> slotsInvariant (step e st).
Proof.
  intros Hinv. pose proof Hinv as (Hlen & Hcur & Htw).
  destruct e as [[pano|u|now options]|i o|t|host frameState]; cbn [step].
  - rewrite handle_load. destruct (decide (url pano = EmptyString)); exact Hinv.
  - exact Hinv.
  - destruct (slots_present st Hinv) as (mIn & mOut & HIn & HOut).
    destruct (handle_show_cases now options st mIn mOut HIn HOut)
      as [->|(panoIn & _ & ->)]; [exact Hinv|].
    destruct (shown_fields now options panoIn st) as (_ & _ & Hs & _ & _ & _ & _ & _ & Htws).
    destruct (shown_spheres now options panoIn st mIn mOut HIn HOut) as (_ & _ & Hl).
    unfold slotsInvariant. rewrite Hl, Hs, Htws.
    split; [exact Hlen|]. split; [apply toggle_lt|].
    right. eexists. split; [reflexivity|]. cbn [tw_object].
    symmetry. apply toggle_twice. exact Hcur.
  - pose proof (loaderEvent_besides i o st) as Hb. unfold besidesTextures in Hb.
    injection Hb as _ _ Hs _ Ht _ _ Hl _ _.
    unfold slotsInvariant. rewrite Hl, Hs, Ht. exact Hinv.
  - destruct Htw as [Hnone|(tw & Hone & Hobj)].
    + assert (stateOf (updateEvent t st) = st) as ->; [|exact Hinv].
      rewrite updateEvent_idle; [reflexivity|].
      intros tw Hin. rewrite Hnone in Hin. inversion Hin.
    + destruct (updateEvent_cases t st tw Hone) as (x & Hcases). cbv zeta in Hcases.
      destruct Hcases as [->|[->| ->]]; [exact Hinv| |];
        unfold slotsInvariant;
        cbn [panoSpheres currentSphere tweens on_sphere set_panoSpheres set_tweens];
        rewrite length_alter; (split; [exact Hlen|]); (split; [exact Hcur|]).
      * right. exists tw. split; [exact Hone | exact Hobj].
      * left. reflexivity.
  - destruct (frameStateEvent_state host frameState st) as [q ->].
    exact Hinv.
Qed.

Lemma step_registry_fields (e : Event) (st : State) :
  slotsInvariant st ->
  (forall pano, e = OnCommand (LoadPanorama pano) -> url pano = EmptyString) ->
  (forall u, e <> OnCommand (DeletePanorama u)) ->
  panoramas (step e st) = panoramas st /\
  length (promises (step e st)) = length (promises st) /\
  nextEntity (step e st) = nextEntity st.
Proof.
  intros Hinv Hload Hdel.
  destruct e as [[pano|u|now options]|i o|t|host frameState]; cbn [step].
  - rewrite handle_load.
    destruct (decide (url pano = EmptyString)) as [_|Hne];
      [|exfalso; apply Hne; apply Hload; reflexivity].
    repeat split; reflexivity.
  - exfalso. apply (Hdel u). reflexivity.
  - destruct (slots_present st Hinv) as (mIn & mOut & HIn & HOut).
    destruct (handle_show_cases now options st mIn mOut HIn HOut)
      as [->|(panoIn & _ & ->)]; [repeat split; reflexivity|].
    destruct (shown_fields now options panoIn st) as (Hp & _ & _ & _ & Hprom & _ & _ & Hn & _).
    rewrite Hp, Hprom, Hn. repeat split; reflexivity.
  - pose proof (loaderEvent_besides i o st) as Hb. unfold besidesTextures in Hb.
    injection Hb as Hp _ _ _ _ _ Hn _ Hprom _. repeat split; assumption.
  - destruct Hinv as (_ & _ & [Hnone|(tw & Hone & _)]).
    + rewrite updateEvent_idle; [repeat split; reflexivity|].
      intros tw Hin. rewrite Hnone in Hin. inversion Hin.
    + destruct (updateEvent_cases t st tw Hone) as (x & Hcases). cbv zeta in Hcases.
      destruct Hcases as [->|[->| ->]]; repeat split; reflexivity.
  - destruct (frameStateEvent_state host frameState st) as [q ->].
    repeat split; reflexivity.
Qed.

Lemma step_keeps_registry (e : Event) (st : State) :
  slotsInvariant st ->
  registryInvariant st /\ entriesDistinct st ->
  registryInvariant (step e st) /\ entriesDistinct (step e st).
Proof.
  intros Hslots [Hreg Hdist].
  assert ((forall pano, e = OnCommand (LoadPanorama pano) -> url pano = EmptyString) ->
          (forall u, e <> OnCommand (DeletePanorama u)) ->
          registryInvariant (step e st) /\ entriesDistinct (step e st)) as Hother.
  { intros Hload Hdel.
    destruct (step_registry_fields e st Hslots Hload Hdel) as (Hp & Hprom & Hn). split.
    - intros u p. rewrite Hp, Hprom, Hn. apply Hreg.
    - intros u1 u2 p1 p2. rewrite Hp. apply Hdist. }
  destruct e as [[pano|u|now options]|i o|t|host frameState];
    try solve [apply Hother; [intros ? [=] | intros ? [=]]].
  - destruct (decide (url pano = EmptyString)) as [He|Hne];
      [apply Hother; [intros ? [= <-]; exact He | intros ? [=]]|].
    clear Hother. cbn [step]. rewrite handle_load.
    destruct (decide (url pano = EmptyString)) as [?|_]; [contradiction|].
    split.
    + intros u p. cbn [panoramas promises nextEntity loaded]. rewrite length_app. cbn [length].
      destruct (decide (url pano = u)) as [<-|Hdiff].
      * rewrite lookup_insert_eq. intros [= <-].
        unfold entryOf. cbn [p_url texture entity]. rewrite entity_id_anchorOf.
        repeat split; [exact Hne | lia | lia].
      * rewrite lookup_insert_ne by exact Hdiff. intros Hp.
        destruct (Hreg u p Hp) as (H1 & H2 & H3 & H4). repeat split; [exact H1|exact H2|lia|lia].
    + intros u1 u2 p1 p2. cbn [panoramas loaded].
      destruct (decide (url pano = u1)) as [<-|Ho1];
        destruct (decide (url pano = u2)) as [<-|Ho2].
      * intros _ _ Hneq. contradiction.
      * rewrite lookup_insert_eq, lookup_insert_ne by exact Ho2. intros [= <-] Hp2 _.
        destruct (Hreg u2 p2 Hp2) as (_ & _ & H3 & H4).
        unfold entryOf. cbn [texture entity]. rewrite entity_id_anchorOf. split; lia.
      * rewrite lookup_insert_ne, lookup_insert_eq by exact Ho1. intros Hp1 [= <-] _.
        destruct (Hreg u1 p1 Hp1) as (_ & _ & H3 & H4).
        unfold entryOf. cbn [texture entity]. rewrite entity_id_anchorOf. split; lia.
      * rewrite !lookup_insert_ne by assumption. apply Hdist.
  - clear Hother. cbn [step handle deletePanorama modify stateOf]. split.
    + intros u' p. cbn [panoramas promises nextEntity set_panoramas]. intros Hp.
      apply lookup_delete_Some in Hp as [_ Hp]. apply Hreg. exact Hp.
    + intros u1 u2 p1 p2. cbn [panoramas set_panoramas]. intros Hp1 Hp2.
      apply lookup_delete_Some in Hp1 as [_ Hp1]. apply lookup_delete_Some in Hp2 as [_ Hp2].
      apply Hdist; assumption.
Qed.

Lemma steps_invariants (es : list Event) :
  forall st : State,
    slotsInvariant st -> registryInvariant st -> entriesDistinct st ->
    slotsInvariant (steps es st)
    /\ registryInvariant (steps es st) /\ entriesDistinct (steps es st).
Proof.
  induction es as [|e rest IH]; intros st Hs Hr Hd; [split; [|split]; assumption|].
  destruct (step_keeps_registry e st Hs (conj Hr Hd)) as [Hr' Hd'].
  apply (IH _ (step_keeps_slots e st Hs) Hr' Hd').
Qed.

Lemma init_invariants :
  slotsInvariant init /\ registryInvariant init /\ entriesDistinct init.
Proof.
  split; [|split].
  - split; [reflexivity|]. split; [cbn; lia | left; reflexivity].
  - intros u p Hp. cbn in Hp. rewrite lookup_empty in Hp. discriminate.
  - intros u1 u2 p1 p2 Hp. cbn in Hp. rewrite lookup_empty in Hp. discriminate.
Qed.

(** X28: whatever commands, loader events, update events and frame events
    the viewer has handled since it started, there are two spheres, the
    active slot is one of them, and at most one fade is in flight, on the
    sphere that is not active. *)
Theorem slots_always_well_formed (es : list Event) :
  slotsInvariant (steps es init).
Proof.
  destruct init_invariants as (Hs & Hr & Hd).
  apply (steps_invariants es init Hs Hr Hd).
Qed.

(** X29: whatever the viewer has handled since it started, every entry of
    the registry is stored under its own url, which is not empty, its
    texture promise and its entity exist, and two entries under different
    urls never share an entity or a texture promise. *)
Theorem registry_always_well_formed (es : list Event) :
  registryInvariant (steps es init) /\ entriesDistinct (steps es init).
Proof.
  destruct init_invariants as (Hs & Hr & Hd).
  apply (steps_invariants es init Hs Hr Hd).
Qed.

(** X30: whatever the viewer has handled since it started, a [showPanorama]
    of a registered url returns: it never throws, and the panorama it names
    is the current one afterwards. *)
Theorem showPanorama_of_registered_returns (f : R -> R) (props : list (string * jsval))
    (es : list Event) (now : R) (options : ShowPanoramaOptions) (panoIn : Panorama) :
  prop (prop TWEEN_Easing "Linear") "None" = JFunction f props ->
  panoramas (steps es init) !! o_url options = Some panoIn ->
  exists st',
    showPanorama now options (steps es init) = Ok tt st' /\
    currentPano st' = Some panoIn.
Proof.
  intros Hlin Hreg.
  destruct init_invariants as (Hs & Hr & Hd).
  destruct (steps_invariants es init Hs Hr Hd) as (Hslots & Hregistry & _).
  destruct (Hregistry _ _ Hreg) as (Hurl & _).
  destruct (slots_present _ Hslots) as (mIn & mOut & HIn & HOut).
  rewrite (showPanorama_succeeds f props now options _ panoIn mIn mOut Hlin Hurl Hreg HIn HOut).
  eexists. split; [reflexivity|].
  destruct (shown_fields now options panoIn (steps es init)) as (_ & Hc & _). exact Hc.
Qed.
End Properties.

Lemma loadPanorama_anchor_iff_longitude_witness :
  latitude longitudeOnly = None /\
  exists p,
    panoramas (stateOf (loadPanorama (Lib := sampleLibraries) longitudeOnly init))
      !! "a.jpg"%string = Some p /\
    is_Some (position (entity p)).
Proof.
  split; [reflexivity|].
  destruct (loadPanorama_anchor_iff_longitude (Lib := sampleLibraries) longitudeOnly init)
    as (p & Hp & Hpos & _); [discriminate|].
  exists p. split; [exact Hp|]. apply Hpos. simpl. eauto.
Defined.

Example resolve_quadratic_inout :
  truthy (resolve (Some "Quadratic.InOut"%string) sampleEasing) = true.
Proof. reflexivity. Qed.

Example resolve_bogus :
  resolve (Some "Bogus.Easing"%string) sampleEasing = JUndefined.
Proof. reflexivity. Qed.

Example resolve_no_name : resolve None sampleEasing = JUndefined.
Proof. reflexivity. Qed.

Lemma showPanorama_unknown_easing_defaults_witness :
  exists st',
    showPanorama (Lib := sampleLibraries) 0 bogusEasing withP1 = Ok tt st' /\
    tw_easing <$> tweens st' = [JFunction (fun k => k) []].
Proof.
  eapply (showPanorama_unknown_easing_defaults (Lib := sampleLibraries)
            (fun k => k) [] 0 bogusEasing withP1).
  - reflexivity.
  - reflexivity.
  - discriminate.
  - reflexivity.
  - reflexivity.
  - reflexivity.
Defined.

(** A call without a url is turned down before the registry is read: the
    error is the validation error 'Expected a url', not the not-found one. *)
Lemma showPanorama_empty_url_is_validation_error :
  panoramas init !! o_url (mkShowPanoramaOptions "" None) = None /\
  exists e,
    showPanorama (Lib := sampleLibraries) 0 (mkShowPanoramaOptions "" None) init
      = Throw e init /\
    errorKind e <> NotFoundError.
Proof.
  split; [reflexivity|].
  exists ExpectedUrl. split; [reflexivity | discriminate].
Qed.

Lemma showPanorama_unregistered_url_witness :
  exists e,
    showPanorama (Lib := sampleLibraries) 0 (mkShowPanoramaOptions "nowhere.jpg" None) withP1
      = Throw e withP1 /\
    errorKind e = NotFoundError.
Proof.
  destruct (showPanorama_unregistered_url (Lib := sampleLibraries) (fun k => k) [] 0
              (mkShowPanoramaOptions "nowhere.jpg" None) withP1) as (e & He & Hk).
  - reflexivity.
  - reflexivity.
  - exists e. split; [exact He | exact Hk].
Defined.

Lemma loadPanorama_failure_leaves_reply_pending_witness :
  exists reply st1,
    loadPanorama (Lib := sampleLibraries) p1Info init = Ok reply st1 /\
    loaderEvent 0 (ImageFailed "404") st1 = st1 /\
    replies st1 !! reply = Some Pending.
Proof.
  destruct (loadPanorama_failure_leaves_reply_pending (Lib := sampleLibraries)
              p1Info init "404") as (reply & st1 & Hload & _ & Hev & Hrep).
  - discriminate.
  - exists reply, st1. split; [exact Hload|]. split; [exact Hev | exact Hrep].
Defined.

Lemma frameStateEvent_drag_without_pano_throws_witness :
  currentPano init = None /\
  frameStateEvent dragHost monoFrame init
  = Throw (TypeError "Cannot read property 'entity' of undefined") init.
Proof.
  split; [reflexivity|].
  eapply (frameStateEvent_drag_without_pano_throws (Lib := sampleLibraries)
            dragHost monoFrame init); reflexivity.
Defined.

Lemma frameStateEvent_drag_right_multiplies_witness :
  exists cfs st',
    frameStateEvent dragHost monoFrame showingP1 = Ok cfs st' /\
    eye_orientation (virtualEye st')
    = Quaternion.multiply halfTurnX
        (Quaternion.fromAxisAngle Cartesian3.UNIT_Y (PI / 2 * ((100 - 0) / 200))) /\
    cfs_eye cfs = virtualEye st'.
Proof.
  apply (frameStateEvent_drag_right_multiplies (Lib := sampleLibraries)
           dragHost monoFrame showingP1
           (mkSubview (Lib := sampleLibraries) (mkViewport 0 0 200 100)
                      (mkFrustum 1 2 1 1000 0 0))
           (mkFrustum (PI / 2) 2 1 1000 0 0)
           0 100 (entryOf (Lib := sampleLibraries) p1Info init) halfTurnX);
    reflexivity.
Defined.

Lemma dragHost_turns :
  frameStateEvent dragHost monoFrame showingP1
  = let st' :=
      set_eye_orientation
        (Quaternion.multiply halfTurnX
           (Quaternion.fromAxisAngle Cartesian3.UNIT_Y (PI / 2 * (100 - 0) / 200)))
        showingP1 in
    Ok (mkContextFrameState 0 (mkViewport 0 0 200 100)
          (publishSubviews (Lib := sampleLibraries)
             (set_fov (PI / 2) (mkFrustum 1 2 1 1000 0 0)) (fs_subviews monoFrame)).2
          (virtualEye st')) st'.
Proof.
  rewrite (frameStateEvent_nonstrict (Lib := sampleLibraries) dragHost monoFrame showingP1
             (mkSubview (Lib := sampleLibraries) (mkViewport 0 0 200 100)
                        (mkFrustum 1 2 1 1000 0 0))
             (mkFrustum (PI / 2) 2 1 1000 0 0)) by reflexivity.
  cbv zeta.
  rewrite (applyDrag_turns dragHost _ _ _ 0 100
             (entryOf (Lib := sampleLibraries) p1Info init) halfTurnX) by reflexivity.
  reflexivity.
Qed.

Lemma sin_eighth_turn_pos : 0 < sin (PI / 2 * (100 - 0) / 200 / 2).
Proof.
  pose proof PI_RGT_0 as Hpi.
  apply sin_gt_0; lra.
Qed.

(** C7, as stated, fails: with the eye a half turn about X and a drag that
    yields a yaw of an eighth of a turn, the orientation the handler sets is
    not yaw * currentOrientation. *)
Lemma drag_yaw_is_not_left_multiplied :
  exists cfs st',
    frameStateEvent dragHost monoFrame showingP1 = Ok cfs st' /\
    eye_orientation (virtualEye st')
    <> Quaternion.multiply
         (Quaternion.fromAxisAngle Cartesian3.UNIT_Y (PI / 2 * ((100 - 0) / 200)))
         halfTurnX.
Proof.
  rewrite dragHost_turns. cbv zeta. eexists _, _. split; [reflexivity|].
  cbn [virtualEye set_eye_orientation set_virtualEye eye_orientation].
  replace (PI / 2 * ((100 - 0) / 200)) with (PI / 2 * (100 - 0) / 200)
    by (unfold Rdiv; ring).
  intros Heq. apply (f_equal qz) in Heq.
  unfold Quaternion.multiply, Quaternion.fromAxisAngle, halfTurnX in Heq.
  cbn [qz] in Heq.
  unfold Cartesian3.normalize, Cartesian3.magnitude, Cartesian3.UNIT_Y in Heq.
  cbn [c3x c3y c3z] in Heq.
  replace (0 * 0 + 1 * 1 + 0 * 0) with 1 in Heq by ring.
  rewrite sqrt_1 in Heq.
  pose proof sin_eighth_turn_pos as Hs.
  lra.
Qed.

(** C8, as stated, fails for the second sub-view of a stereo tick: the
    projection published for it comes from the decomposition of the first
    sub-view's projection, not of its own. *)
Lemma second_subview_uses_first_projection :
  exists cfs st' published,
    frameStateEvent sensorHost stereoFrame init = Ok cfs st' /\
    cfs_subviews cfs !! 1%nat = Some published /\
    sv_projectionMatrix published
    <> frustum_projectionMatrix (Libraries := sampleLibraries)
         (set_aspectRatio (aspectOf (sv_viewport rightEye))
            (set_fov (fuseFov (PI / 2) (aggregator sensorHost))
               (decomposePerspectiveProjectionMatrix (Libraries := sampleLibraries)
                  (sv_projectionMatrix rightEye)))).
Proof.
  eexists _, _, _. split; [reflexivity|]. split; [reflexivity|].
  simpl. intros Heq. apply (f_equal xOffset) in Heq. simpl in Heq. lra.
Qed.

Lemma frameStateEvent_projections_witness :
  exists cfs st',
    frameStateEvent sensorHost stereoFrame init = Ok cfs st' /\
    cfs_subviews cfs !! 1%nat
    = Some (mkSubview (Lib := sampleLibraries) (sv_viewport rightEye)
              (set_aspectRatio (aspectOf (sv_viewport rightEye))
                 (set_fov (PI / 2) (sv_projectionMatrix leftEye)))).
Proof.
  destruct (frameStateEvent_projections (Lib := sampleLibraries)
              sensorHost stereoFrame init leftEye (mkFrustum (PI / 2) 1 1 1000 0 0))
    as (cfs & st' & Hrun & Hsub).
  - reflexivity.
  - reflexivity.
  - reflexivity.
  - left. eexists. reflexivity.
  - exists cfs, st'. split; [exact Hrun|]. apply (Hsub 1%nat rightEye). reflexivity.
Defined.

(** C6, as stated, fails when the url of the shown panorama is registered
    again: no command deletes anything, yet the pointer keeps the old entry
    while the registry holds the new one. *)
Lemma reload_leaves_pointer_stale :
  never (Lib := sampleLibraries) deletesCurrent reloadWhileShown init /\
  ~ pointerInRegistry (run (Lib := sampleLibraries) reloadWhileShown init).
Proof.
  split.
  - repeat split; intros [].
  - intros Hptr.
    pose proof (Hptr (entryOf (Lib := sampleLibraries) p1Info init) eq_refl) as Hp.
    assert (panoramas (run (Lib := sampleLibraries) reloadWhileShown init) !! "p1"%string
            = Some (entryOf (Lib := sampleLibraries) p1Info showingP1)) as Hreg
      by (vm_compute; reflexivity).
    change (p_url (entryOf (Lib := sampleLibraries) p1Info init)) with "p1"%string in Hp.
    rewrite Hreg in Hp. discriminate Hp.
Qed.

Lemma pointer_in_registry_witness :
  pointerInRegistry (run (Lib := sampleLibraries) tidySession init).
Proof.
  apply (pointer_in_registry (Lib := sampleLibraries) tidySession);
    unfold tidySession; cbn [never deletesCurrent reloadsCurrent];
    repeat split;
    match goal with
    | |- ~ False => intros []
    | |- _ =>
        intros (p & Hp & Hu); vm_compute in Hp; try discriminate Hp;
        injection Hp as <-; discriminate Hu
    end.
Defined.

Lemma crossfade_slots_witness :
  let st := run (Lib := sampleLibraries)
              (crossfade p1Info p2Info (Some (mkTransition (Some "Linear"%string) (Some 0)))
                         0 10) init in
  currentSphere st = 0%nat /\
  tweens st = [mkTween 1 1 0 1000 (JFunction (fun k => k) []) 10] /\
  exists st',
    updateEvent 1010 st = Ok tt st' /\
    slotOpacity 1 st' = Some (1 - Rmin 1 ((1010 - 10) / 1000)) /\
    slotOpacity 0 st' = Some 1.
Proof.
  destruct (crossfade_slots (Lib := sampleLibraries) p1Info p2Info
              (Some (mkTransition (Some "Linear"%string) (Some 0))) 0 10 [])
    as (Hcur & _ & _ & Htws & Hfade).
  - reflexivity.
  - discriminate.
  - discriminate.
  - discriminate.
  - split; [exact Hcur|]. split; [exact Htws|]. apply Hfade. lra.
Defined.

(** ** The further properties on concrete input *)

Lemma loadPanorama_lookup_round_trip_witness :
  exists reply st' p,
    loadPanorama (Lib := sampleLibraries) geoP1 init = Ok reply st' /\
    panoramas st' !! "p1"%string = Some p /\
    (p_longitude p, p_latitude p, p_height p, p_offsetDegrees p)
    = (Some 10, Some 20, None, Some 90).
Proof.
  destruct (loadPanorama_lookup_round_trip (Lib := sampleLibraries) geoP1 init)
    as (reply & st' & p & Hrun & Hlook & Hfields & _); [discriminate|].
  exists reply, st', p. split; [exact Hrun|]. split; [exact Hlook|].
  injection Hfields as _ -> -> -> ->. reflexivity.
Defined.

Lemma loadPanorama_overwrites_witness :
  dom (panoramas (stateOf (loadPanorama (Lib := sampleLibraries) geoP1
                             (stateOf (loadPanorama (Lib := sampleLibraries) p1Info init)))))
  = dom (panoramas (stateOf (loadPanorama (Lib := sampleLibraries) p1Info init))).
Proof.
  apply (loadPanorama_overwrites (Lib := sampleLibraries) p1Info geoP1 init);
    [discriminate | reflexivity].
Defined.

Lemma deletePanorama_keeps_current_witness :
  exists st',
    deletePanorama "p1" showingP1 = Ok tt st' /\
    currentPano st' = Some (entryOf (Lib := sampleLibraries) p1Info init) /\
    panoramas st' !! "p1"%string = None.
Proof.
  destruct (deletePanorama_keeps_current "p1"
              (entryOf (Lib := sampleLibraries) p1Info init) showingP1)
    as (st' & Hrun & Hcur & Hgone & _); [reflexivity | reflexivity|].
  exists st'. split; [exact Hrun|]. split; [exact Hcur | exact Hgone].
Defined.

Lemma showingP1_incoming : panoSpheres showingP1 !! 1%nat = Some incomingMesh.
Proof. vm_compute. reflexivity. Qed.

Lemma loaderEvent_touches_only_textures_witness :
  let st' := loaderEvent 0 (ImageLoaded p1Image) showingP1 in
  panoSpheres st' !! 1%nat = Some incomingMesh
  \/ exists tex, ImageLoaded p1Image = ImageLoaded tex /\
       panoSpheres st' !! 1%nat
       = Some (withTexture (mkTexture (image tex) LinearFilter) incomingMesh).
Proof.
  exact (proj1 (proj2 (loaderEvent_touches_only_textures 0 (ImageLoaded p1Image) showingP1))
           1%nat _ showingP1_incoming).
Defined.

Lemma delete_while_loading_witness :
  exists reply st1,
    loadPanorama (Lib := sampleLibraries) p1Info init = Ok reply st1 /\
    panoramas (loaderEvent 0 (ImageLoaded p1Image) (stateOf (deletePanorama "p1" st1)))
    = panoramas init.
Proof.
  destruct (delete_while_loading (Lib := sampleLibraries) p1Info p1Image init)
    as (reply & st1 & Hrun & Hafter); [discriminate | reflexivity|].
  exists reply, st1. split; [exact Hrun|]. exact (proj1 Hafter).
Defined.

Lemma showPanorama_reanchors_eye_witness :
  exists st',
    showPanorama (Lib := sampleLibraries) 0 showP1 withP1 = Ok tt st' /\
    currentPano st' = Some (entryOf (Lib := sampleLibraries) p1Info init) /\
    currentSphere st' = 1%nat.
Proof.
  destruct (showPanorama_reanchors_eye (Lib := sampleLibraries) (fun k => k) [] 0 showP1 withP1
              (entryOf (Lib := sampleLibraries) p1Info init) newMesh newMesh)
    as (st' & Hrun & Hcur & _ & _ & Hs); try reflexivity; [discriminate|].
  exists st'. split; [exact Hrun|]. split; [exact Hcur | exact Hs].
Defined.

Lemma showPanorama_starts_one_fade_witness :
  exists st' easing,
    showPanorama (Lib := sampleLibraries) 0 quadraticShow withP1 = Ok tt st' /\
    tweens st' = [mkTween 0 1 0 500 easing 0].
Proof.
  destruct (showPanorama_starts_one_fade (Lib := sampleLibraries) (fun k => k) [] 0
              quadraticShow withP1
              (entryOf (Lib := sampleLibraries) p1Info init) newMesh newMesh)
    as (st' & easing & Hrun & Htw & _); try reflexivity; [discriminate|].
  exists st', easing. split; [exact Hrun | exact Htw].
Defined.

Lemma showPanorama_spheres_witness :
  exists st',
    showPanorama (Lib := sampleLibraries) 0 showP1 withP1 = Ok tt st' /\
    panoSpheres st' !! 0%nat
    = Some (mkMesh (mkMaterial None 1 true true) 0 (-0.9, 0.9, 0.9) 1%Z).
Proof.
  destruct (showPanorama_spheres (Lib := sampleLibraries) (fun k => k) [] 0 showP1 withP1
              (entryOf (Lib := sampleLibraries) p1Info init) newMesh newMesh)
    as (st' & Hrun & _ & Hout); try reflexivity; [discriminate|].
  exists st'. split; [exact Hrun | exact Hout].
Defined.

Lemma showPanorama_uses_named_easing_witness :
  exists st',
    showPanorama (Lib := sampleLibraries) 0 quadraticShow withP1 = Ok tt st' /\
    tw_easing <$> tweens st' = [resolve (Some "Quadratic.InOut"%string) sampleEasing].
Proof.
  apply (showPanorama_uses_named_easing (Lib := sampleLibraries) 0 quadraticShow withP1
           (entryOf (Lib := sampleLibraries) p1Info init) newMesh newMesh
           "Quadratic.InOut" (Some 500)); try reflexivity.
  discriminate.
Defined.

Lemma showPanorama_twice_toggles_back_witness :
  exists st1 st2,
    showPanorama (Lib := sampleLibraries) 0 showP1 withP1 = Ok tt st1 /\
    showPanorama (Lib := sampleLibraries) 7 quadraticShow st1 = Ok tt st2 /\
    currentSphere st2 = 0%nat.
Proof.
  destruct (showPanorama_twice_toggles_back (Lib := sampleLibraries) (fun k => k) [] 0 7
              showP1 quadraticShow withP1
              (entryOf (Lib := sampleLibraries) p1Info init)
              (entryOf (Lib := sampleLibraries) p1Info init) newMesh newMesh)
    as (st1 & st2 & H1 & H2 & Hs & _); try reflexivity; try discriminate.
  - vm_compute. lia.
  - exists st1, st2. split; [exact H1|]. split; [exact H2 | exact Hs].
Defined.

Lemma texture_bound_on_arrival_witness :
  exists reply st1 st2,
    loadPanorama (Lib := sampleLibraries) p1Info init = Ok reply st1 /\
    showPanorama (Lib := sampleLibraries) 0 showP1 st1 = Ok tt st2 /\
    slotMap (currentSphere st2) st2 = Some None /\
    slotMap (currentSphere st2) (loaderEvent 0 (ImageLoaded p1Image) st2)
    = Some (Some (mkTexture "p1.jpg" LinearFilter)).
Proof.
  destruct (texture_bound_on_arrival (Lib := sampleLibraries) (fun k => k) [] 0 p1Info None
              init newMesh newMesh)
    as (reply & st1 & st2 & Hload & Hshow & Hnone & Hbind); try reflexivity; [discriminate|].
  exists reply, st1, st2. split; [exact Hload|]. split; [exact Hshow|].
  split; [exact Hnone | exact (Hbind p1Image)].
Defined.

Lemma texture_bound_at_show_witness :
  exists reply st1 st2,
    loadPanorama (Lib := sampleLibraries) p1Info init = Ok reply st1 /\
    showPanorama (Lib := sampleLibraries) 0 showP1
                 (loaderEvent 0 (ImageLoaded p1Image) st1) = Ok tt st2 /\
    slotMap (currentSphere st2) st2 = Some (Some (mkTexture "p1.jpg" LinearFilter)).
Proof.
  apply (texture_bound_at_show (Lib := sampleLibraries) (fun k => k) [] 0 p1Info None
           init p1Image newMesh newMesh); try reflexivity.
  discriminate.
Defined.

Lemma showingP1_fade :
  tweens showingP1 = [p1Fade] /\ panoSpheres showingP1 !! 0%nat = Some fadingMesh.
Proof. split; vm_compute; reflexivity. Qed.

Lemma updateEvent_before_start_witness :
  updateEvent (-1) showingP1 = Ok tt showingP1.
Proof.
  apply updateEvent_before_start.
  intros tw Hin. rewrite (proj1 showingP1_fade) in Hin.
  apply list_elem_of_singleton in Hin. subst tw. cbn. lra.
Defined.

Lemma updateEvent_fade_running_witness :
  exists st',
    updateEvent 250 showingP1 = Ok tt st' /\
    tweens st' = [p1Fade] /\
    (material <$> panoSpheres st' !! 0%nat)
    = Some (mkMaterial None (1 + (0 - 1) * ((250 - 0) / 1000)) true true).
Proof.
  apply (updateEvent_fade_running 250 showingP1 p1Fade fadingMesh (fun k => k) []).
  - exact (proj1 showingP1_fade).
  - reflexivity.
  - exact (proj2 showingP1_fade).
  - cbn. lra.
  - cbn. lra.
Defined.

Lemma updateEvent_fade_completes_witness :
  exists st',
    updateEvent 1000 showingP1 = Ok tt st' /\
    tweens st' = [] /\
    (material <$> panoSpheres st' !! 0%nat)
    = Some (mkMaterial None (1 + (0 - 1) * 1) true true).
Proof.
  apply (updateEvent_fade_completes 1000 showingP1 p1Fade fadingMesh (fun k => k) []).
  - exact (proj1 showingP1_fade).
  - reflexivity.
  - exact (proj2 showingP1_fade).
  - cbn. lra.
  - cbn. lra.
Defined.

Lemma named_non_function_easing_breaks_update_witness :
  exists st',
    showPanorama (Lib := sampleLibraries) 0 familyShow withP1 = Ok tt st' /\
    updateEvent 16 st' = Throw (TypeError "easing is not a function") st'.
Proof.
  apply (named_non_function_easing_breaks_update (Lib := sampleLibraries) 0 16 familyShow
           withP1 (entryOf (Lib := sampleLibraries) p1Info init) newMesh newMesh
           "Linear" None); try reflexivity.
  - intros g ps. discriminate.
  - discriminate.
  - lra.
Defined.

Lemma frameStateEvent_strict_publishes_untouched_witness :
  exists cfs st',
    frameStateEvent dragHost strictFrame init = Ok cfs st' /\
    cfs_subviews cfs = [].
Proof.
  destruct (frameStateEvent_strict_publishes_untouched (Lib := sampleLibraries)
              dragHost strictFrame init) as (cfs & st' & Hrun & Hsub & _); [reflexivity|].
  exists cfs, st'. split; [exact Hrun | exact Hsub].
Defined.

Lemma frameStateEvent_device_orientation_wins_witness :
  exists cfs st',
    frameStateEvent sensorHost stereoFrame showingP1 = Ok cfs st' /\
    cfs_eye cfs = virtualEye st' /\
    virtualEye st' = mkVirtualEye (mkQuaternion 0 0 0 1) (eye_position (virtualEye showingP1)).
Proof.
  apply (frameStateEvent_device_orientation_wins (Lib := sampleLibraries)
           sensorHost stereoFrame showingP1 (mkQuaternion 0 0 0 1)); [reflexivity|].
  right. split; eexists; reflexivity.
Defined.

Lemma frameStateEvent_without_subviews_throws_witness :
  frameStateEvent sensorHost emptyFrame init
  = Throw (TypeError "Cannot read property 'projectionMatrix' of undefined")
          (afterDevice sensorHost init).
Proof.
  apply (frameStateEvent_without_subviews_throws (Lib := sampleLibraries)
           sensorHost emptyFrame init); reflexivity.
Defined.

Lemma frameStateEvent_drag_keeps_unit_witness :
  exists cfs st',
    frameStateEvent dragHost monoFrame showingP1 = Ok cfs st' /\
    normSq (eye_orientation (virtualEye st')) = 1 /\
    normSq (eye_orientation (cfs_eye cfs)) = 1.
Proof.
  apply (frameStateEvent_drag_keeps_unit (Lib := sampleLibraries)
           dragHost monoFrame showingP1
           (mkSubview (Lib := sampleLibraries) (mkViewport 0 0 200 100)
                      (mkFrustum 1 2 1 1000 0 0))
           (mkFrustum (PI / 2) 2 1 1000 0 0)
           0 100 (entryOf (Lib := sampleLibraries) p1Info init) halfTurnX);
    try reflexivity.
  - unfold normSq, halfTurnX. cbn. ring.
  - cbn. lra.
Defined.

Lemma fuseFov_gesture_forces_bounds_witness :
  fovInBounds (fuseFov 100 (mkAggregator (Some 3) None None)).
Proof.
  apply fuseFov_gesture_forces_bounds. left. cbn. eauto.
Defined.

Lemma fuseFov_wheel_direction_witness :
  fuseFov (PI / 2) (mkAggregator (Some 5) None None) <= PI / 2.
Proof.
  assert (fovInBounds (PI / 2)) as Hin
    by (unfold fovInBounds; pose proof PI_RGT_0; lra).
  destruct (fuseFov_wheel_direction (PI / 2) 5 Hin) as (_ & Hpos & _).
  apply Hpos. lra.
Defined.

Lemma resolve_path_composition_witness :
  resolve (Some "Quadratic.InOut"%string) sampleEasing
  = resolve (Some "InOut"%string) (resolve (Some "Quadratic"%string) sampleEasing).
Proof.
  apply (resolve_path_composition "Quadratic" "InOut" sampleEasing);
    [reflexivity | discriminate | discriminate].
Defined.

Lemma showPanorama_of_registered_returns_witness :
  exists st',
    showPanorama (Lib := sampleLibraries) 9 showP1 (steps shortLife init) = Ok tt st' /\
    currentPano st' = Some (entryOf (Lib := sampleLibraries) p1Info init).
Proof.
  apply (showPanorama_of_registered_returns (Lib := sampleLibraries) (fun k => k) []
           shortLife 9 showP1); [reflexivity|].
  vm_compute. reflexivity.
Defined.
